(** * A shallow embedding of [aospy/automate.py]

    The specification-resolution engine ([CalcSuite]) and the execution
    harness ([_compute_or_skip_on_error], [_exec_calcs], [submit_mult_calcs])
    of aospy, over a small model of the Python values they manipulate. *)

From Stdlib Require Import String Ascii List ZArith Bool Lia Permutation.
Import ListNotations.
Open Scope list_scope.
Set Warnings "-register-all".

(** ** Python exceptions

    Only the classes the module can raise or catch.  [PoolBlocked] is not a
    Python exception: it stands for a [Pool.map] call that never returns
    (a worker killed by an exception outside [Exception]). *)
Inductive exc :=
| KeyError
| AttributeError
| TypeError
| IndexError
| ValueError
| EOFError
| AospyException
| KeyboardInterrupt
| SystemExit
| PoolBlocked.

(** [isinstance(e, Exception)]: [KeyboardInterrupt] and [SystemExit] derive
    from [BaseException] only. *)
Definition is_Exception (e : exc) : bool :=
  match e with
  | KeyboardInterrupt | SystemExit | PoolBlocked => false
  | _ => true
  end.

(** [isinstance(e, LookupError)]: only [KeyError] and [IndexError]. *)
Definition is_LookupError (e : exc) : bool :=
  match e with
  | KeyError | IndexError => true
  | _ => false
  end.

(** ** The error monad of pure code *)
Inductive res (A : Type) :=
| Ok (a : A)
| Err (e : exc).
Arguments Ok {A} a.
Arguments Err {A} e.

Definition rbind {A B} (m : res A) (k : A -> res B) : res B :=
  match m with Ok a => k a | Err e => Err e end.

Notation "'let?' x ':=' m 'in' k" := (rbind m (fun x => k))
  (at level 200, x name, m at level 100, k at level 200).

Fixpoint mapR {A B} (f : A -> res B) (xs : list A) : res (list B) :=
  match xs with
  | [] => Ok []
  | x :: xs' => let? y := f x in let? ys := mapR f xs' in Ok (y :: ys)
  end.

Definition of_option {A} (e : exc) (o : option A) : res A :=
  match o with Some a => Ok a | None => Err e end.

(** ** Python values

    Lists are [PList] and tuples [PTuple]; a set is [PSet] with its elements in
    iteration order (CPython's order is by hash; no statement below depends
    on it); dicts have string keys, in insertion order; an object has an
    identity, its class MRO (class names) and its attribute dict. *)
Inductive pyval :=
| PNone
| PBool (b : bool)
| PInt (z : Z)
| PStr (s : string)
| PList (xs : list pyval)
| PSet (xs : list pyval)
| PDict (kvs : list (string * pyval))
| PObj (oid : nat) (mro : list string) (attrs : list (string * pyval))
| PTuple (xs : list pyval).

Definition pydict := list (string * pyval).

(** *** Dicts as insertion-ordered association lists *)
Section Dict.
Context {A : Type}.

Fixpoint dict_get (k : string) (d : list (string * A)) : option A :=
  match d with
  | [] => None
  | (k', v) :: d' => if String.eqb k k' then Some v else dict_get k d'
  end.

(** [d[k] = v]: an existing key keeps its position, a new key goes last. *)
Fixpoint dict_set (k : string) (v : A) (d : list (string * A)) :=
  match d with
  | [] => [(k, v)]
  | (k', v') :: d' =>
      if String.eqb k k' then (k, v) :: d' else (k', v') :: dict_set k v d'
  end.

Fixpoint dict_delete (k : string) (d : list (string * A)) :=
  match d with
  | [] => []
  | (k', v') :: d' => if String.eqb k k' then d' else (k', v') :: dict_delete k d'
  end.

(** [d.pop(k)]: [KeyError] when absent. *)
Definition dict_pop (k : string) (d : list (string * A))
  : res (A * list (string * A)) :=
  match dict_get k d with
  | Some v => Ok (v, dict_delete k d)
  | None => Err KeyError
  end.

(** [d.pop(k, default)]. *)
Definition dict_pop_default (k : string) (dflt : A) (d : list (string * A))
  : A * list (string * A) :=
  match dict_get k d with
  | Some v => (v, dict_delete k d)
  | None => (dflt, d)
  end.

(** [d[k]]. *)
Definition dict_getitem (k : string) (d : list (string * A)) : res A :=
  of_option KeyError (dict_get k d).

(** [dict(pairs)] and [result.update(dictionary)]. *)
Definition dict_update (d : list (string * A)) (src : list (string * A)) :=
  fold_left (fun acc kv => dict_set (fst kv) (snd kv) acc) src d.

Definition dict_from_pairs (ps : list (string * A)) := dict_update [] ps.

End Dict.

(** *** Attribute access and builtins *)

(** [getattr(obj, name)]: only objects carry data attributes here. *)
Definition getattr (obj : pyval) (name : string) : res pyval :=
  match obj with
  | PObj _ _ attrs => of_option AttributeError (dict_get name attrs)
  | _ => Err AttributeError
  end.

(** [getattr(obj, name, default)]. *)
Definition getattr_default (obj : pyval) (name : string) (dflt : pyval) : pyval :=
  match getattr obj name with Ok v => v | Err _ => dflt end.

(** [obj.__dict__.values()]: dicts, lists and strings have no [__dict__]. *)
Definition obj_dict_values (obj : pyval) : res (list pyval) :=
  match obj with
  | PObj _ _ attrs => Ok (map snd attrs)
  | _ => Err AttributeError
  end.

Definition isinstance (v : pyval) (cls : string) : bool :=
  match v with
  | PObj _ mro _ => existsb (String.eqb cls) mro
  | _ => false
  end.

(** [v == s] for a string literal [s]. *)
Definition py_eq_str (v : pyval) (s : string) : bool :=
  match v with PStr s' => String.eqb s' s | _ => false end.

(** Truthiness, as used by [if x:]. *)
Definition truthy (v : pyval) : bool :=
  match v with
  | PNone => false
  | PBool b => b
  | PInt z => negb (Z.eqb z 0)
  | PStr s => negb (String.eqb s EmptyString)
  | PList xs | PSet xs => negb (Nat.eqb (length xs) 0)
  | PDict kvs => negb (Nat.eqb (length kvs) 0)
  | PObj _ _ _ => true
  | PTuple xs => negb (Nat.eqb (length xs) 0)
  end.

(** [iter(v)]: a string iterates over its one-character strings, a dict
    over its keys; other values are not iterable. *)
Definition iter_py (v : pyval) : res (list pyval) :=
  match v with
  | PList xs | PSet xs | PTuple xs => Ok xs
  | PDict kvs => Ok (map (fun kv => PStr (fst kv)) kvs)
  | PStr s => Ok (map (fun c => PStr (String c EmptyString)) (list_ascii_of_string s))
  | _ => Err TypeError
  end.

(** Hash keys: equal keys are equal set elements ([True == 1]); objects
    compare by identity; tuples compare element by element and are hashable
    when their elements are; lists, sets and dicts are unhashable. *)
Inductive hkey :=
| HNone
| HInt (z : Z)
| HStr (s : string)
| HObj (n : nat)
| HTuple (ks : list hkey).

Fixpoint hkey_eqb (a b : hkey) : bool :=
  match a, b with
  | HNone, HNone => true
  | HInt x, HInt y => Z.eqb x y
  | HStr x, HStr y => String.eqb x y
  | HObj x, HObj y => Nat.eqb x y
  | HTuple xs, HTuple ys =>
      (fix eqb_list (xs ys : list hkey) : bool :=
         match xs, ys with
         | [], [] => true
         | x :: xs', y :: ys' => hkey_eqb x y && eqb_list xs' ys'
         | _, _ => false
         end) xs ys
  | _, _ => false
  end.

Fixpoint hash_key (v : pyval) : res hkey :=
  match v with
  | PNone => Ok HNone
  | PBool b => Ok (HInt (if b then 1 else 0)%Z)
  | PInt z => Ok (HInt z)
  | PStr s => Ok (HStr s)
  | PObj n _ _ => Ok (HObj n)
  | PTuple xs => let? ks := mapR hash_key xs in Ok (HTuple ks)
  | _ => Err TypeError
  end.

(** [set(xs)]: the first of equal elements is kept. *)
Fixpoint set_insert (acc : list (hkey * pyval)) (xs : list pyval)
  : res (list (hkey * pyval)) :=
  match xs with
  | [] => Ok acc
  | x :: xs' =>
      let? k := hash_key x in
      if existsb (fun kv => hkey_eqb (fst kv) k) acc
      then set_insert acc xs'
      else set_insert (acc ++ [(k, x)]) xs'
  end.

Definition py_set (xs : list pyval) : res (list pyval) :=
  let? acc := set_insert [] xs in Ok (map snd acc).

(** [set(v)] for an iterable [v]. *)
Definition py_set_of (v : pyval) : res pyval :=
  let? xs := iter_py v in let? s := py_set xs in Ok (PSet s).

(** ** [itertools.product] and [_permuted_dicts_of_specs] *)

(** [itertools.product( *axes)], first axis slowest. *)
Fixpoint product (axes : list (list pyval)) : list (list pyval) :=
  match axes with
  | [] => [[]]
  | xs :: rest => flat_map (fun x => map (cons x) (product rest)) xs
  end.

Definition concat_mapR {A B} (f : A -> res (list B)) (xs : list A) : res (list B) :=
  let? yss := mapR f xs in Ok (concat yss).

Definition _permuted_dicts_of_specs (specs : pydict) : res (list pydict) :=
  let? axes := mapR (fun kv => iter_py (snd kv)) specs in
  Ok (map (fun perm => dict_from_pairs (combine (map fst specs) perm))
          (product axes)).

(** [_merge_dicts( *dict_args)]. *)
Definition _merge_dicts (dict_args : list pydict) : pydict :=
  fold_left dict_update dict_args [].

(** ** Module constants *)
Definition _OBJ_LIB_STR := "library"%string.
Definition _PROJECTS_STR := "projects"%string.
Definition _MODELS_STR := "models"%string.
Definition _RUNS_STR := "runs"%string.
Definition _REGIONS_STR := "regions"%string.
Definition _VARIABLES_STR := "variables"%string.
Definition _TAG_ATTR_MODIFIERS : list (string * string) :=
  [("all", ""); ("default", "default_")]%string.

(** [_get_attr_by_tag(obj, tag, attr_name)]. *)
Definition _get_attr_by_tag (obj : pyval) (tag attr_name : string) : res pyval :=
  let? modifier := dict_getitem tag _TAG_ATTR_MODIFIERS in
  getattr obj (modifier ++ attr_name)%string.

(** [_get_all_objs_of_type(type_, parent)]. *)
Definition _get_all_objs_of_type (type_ : string) (parent : pyval) : res pyval :=
  let? vals := obj_dict_values parent in
  let? s := py_set (filter (fun obj => isinstance obj type_) vals) in
  Ok (PSet s).

(** ** [CalcSuite] *)

(** [_CORE_SPEC_NAMES] is a Python set; it is only ever iterated to pop
    every one of its names, so its iteration order is taken as written. *)
Definition _CORE_SPEC_NAMES : list string :=
  [_OBJ_LIB_STR; _PROJECTS_STR; _MODELS_STR; _RUNS_STR].

Definition _AUX_SPEC_NAMES : list string :=
  [_VARIABLES_STR; _REGIONS_STR; "date_ranges"; "input_time_intervals";
   "input_time_datatypes"; "input_time_offsets"; "input_vertical_datatypes";
   "output_time_intervals"; "output_time_regional_reductions";
   "output_vertical_reductions"]%string.

(** [_NAMES_SUITE_TO_CALC]; [None] is Python's [None]. *)
Definition _NAMES_SUITE_TO_CALC : list (string * option string) :=
  [(_PROJECTS_STR, Some "proj"); (_MODELS_STR, Some "model");
   (_RUNS_STR, Some "run"); (_VARIABLES_STR, Some "var");
   (_REGIONS_STR, Some "region"); ("date_ranges", Some "date_range");
   ("input_time_intervals", Some "intvl_in");
   ("input_time_datatypes", Some "dtype_in_time");
   ("input_time_offsets", Some "time_offset");
   ("input_vertical_datatypes", Some "dtype_in_vert");
   ("output_time_intervals", Some "intvl_out");
   ("output_time_regional_reductions", Some "dtype_out_time");
   ("output_vertical_reductions", Some "dtype_out_vert")]%string.

Record CalcSuite := mkCalcSuite {
  _specs_in : pydict;
  _obj_lib : pyval
}.

(** [CalcSuite.__init__]. *)
Definition CalcSuite_init (calc_suite_specs : pydict) : res CalcSuite :=
  let? lib := dict_getitem _OBJ_LIB_STR calc_suite_specs in
  Ok (mkCalcSuite calc_suite_specs lib).

Section CalcSuiteMethods.
Variable self : CalcSuite.

Definition _get_requested_spec (obj : pyval) (spec_name : string) : res pyval :=
  let? requested := dict_getitem spec_name self.(_specs_in) in
  match requested with
  | PStr tag => _get_attr_by_tag obj tag spec_name
  | _ => Ok requested
  end.

(** The dict literal of one core tree, keyed by the
    [_NAMES_SUITE_TO_CALC] names of projects, models and runs. *)
Definition core_tree (project model run : pyval) : pydict :=
  dict_from_pairs [("proj", project); ("model", model); ("run", run)]%string.

Definition _permute_core_specs : res (list pydict) :=
  let? projects := _get_requested_spec self.(_obj_lib) _PROJECTS_STR in
  let? ps := iter_py projects in
  concat_mapR (fun project =>
    let? models := _get_requested_spec project _MODELS_STR in
    let? ms := iter_py models in
    concat_mapR (fun model =>
      let? runs := _get_requested_spec model _RUNS_STR in
      let? rs := iter_py runs in
      Ok (map (fun run => core_tree project model run) rs)) ms) ps.

Definition _get_regions : res pyval :=
  let? requested := dict_getitem _REGIONS_STR self.(_specs_in) in
  if py_eq_str requested "all" then
    let? s := _get_all_objs_of_type "Region"
                (getattr_default self.(_obj_lib) "regions" self.(_obj_lib)) in
    Ok (PList [s])
  else
    let? s := py_set_of requested in Ok (PList [s]).

Definition _get_variables : res pyval :=
  let? requested := dict_getitem _VARIABLES_STR self.(_specs_in) in
  if py_eq_str requested "all" then
    _get_all_objs_of_type "Var"
      (getattr_default self.(_obj_lib) "variables" self.(_obj_lib))
  else
    py_set_of requested.

Definition _get_date_ranges : res pyval :=
  let? requested := dict_getitem "date_ranges" self.(_specs_in) in
  if py_eq_str requested "default" then Ok (PList [PStr "default"])
  else Ok requested.

Definition _get_time_reg_reducts : res pyval :=
  let? requested := dict_getitem "output_time_regional_reductions" self.(_specs_in) in
  Ok (PList [requested]).

(** [[d.pop(k) for k in ks]]. *)
Fixpoint pop_keys {A} (ks : list string) (d : list (string * A))
  : res (list (string * A)) :=
  match ks with
  | [] => Ok d
  | k :: ks' => let? p := dict_pop k d in pop_keys ks' (snd p)
  end.

Definition _get_aux_specs : res pydict :=
  let? specs := pop_keys _CORE_SPEC_NAMES self.(_specs_in) in
  let? regions := _get_regions in
  let specs := dict_set _REGIONS_STR regions specs in
  let? variables := _get_variables in
  let specs := dict_set _VARIABLES_STR variables specs in
  let? date_ranges := _get_date_ranges in
  let specs := dict_set "date_ranges" date_ranges specs in
  let? reducts := _get_time_reg_reducts in
  let specs := dict_set "output_time_regional_reductions" reducts specs in
  Ok specs.

(** [for suite_name, calc_name in mapping.items():
         specs[calc_name] = specs.pop(suite_name)].
    Our dicts have string keys; the [None] entry ('library') is popped from
    the mapping before the loop, so the [None] branch is never taken. *)
Fixpoint rename_specs (mapping : list (string * option string)) (specs : pydict)
  : res pydict :=
  match mapping with
  | [] => Ok specs
  | (suite_name, Some calc_name) :: mapping' =>
      let? p := dict_pop suite_name specs in
      rename_specs mapping' (dict_set calc_name (fst p) (snd p))
  | (_, None) :: _ => Err TypeError
  end.

Definition _permute_aux_specs : res (list pydict) :=
  let calc_aux_mapping := dict_set _OBJ_LIB_STR None _NAMES_SUITE_TO_CALC in
  let? calc_aux_mapping := pop_keys _CORE_SPEC_NAMES calc_aux_mapping in
  let? specs := _get_aux_specs in
  let? specs := rename_specs calc_aux_mapping specs in
  _permuted_dicts_of_specs specs.

Definition _combine_core_aux_specs : res (list pydict) :=
  let? cores := _permute_core_specs in
  concat_mapR (fun core_dict =>
    let? auxs := _permute_aux_specs in
    Ok (map (fun aux_dict => _merge_dicts [core_dict; aux_dict]) auxs)) cores.

End CalcSuiteMethods.

(** ** The effects of the execution harness

    A computation unit is opaque: its string form and the outcome of its
    [compute] for given keyword options (units are independent of one
    another and of the caller's state). *)
Inductive outcome :=
| Returns (v : pyval)
| Raises (e : exc) (traceback : string).

Record calc := mkCalc {
  calc_str : string;
  calc_compute : pydict -> outcome
}.

(** Observable events: a unit constructed from its parameters, a unit's
    [compute] called. *)
Inductive event :=
| EvConstruct (sp : pydict)
| EvCompute (c : string).

(** The world: standard input lines, standard output, warning log, the
    trace of events and the heap of dict objects the caller can observe. *)
Record world := mkWorld {
  w_stdin : list string;
  w_stdout : list string;
  w_log : list string;
  w_events : list event;
  w_heap : list (nat * pydict)
}.

Definition M (A : Type) := world -> res A * world.

Definition mret {A} (a : A) : M A := fun w => (Ok a, w).

Definition mbind {A B} (m : M A) (k : A -> M B) : M B :=
  fun w => match m w with
           | (Ok a, w') => k a w'
           | (Err e, w') => (Err e, w')
           end.

Notation "x <- m ;; k" := (mbind m (fun x => k))
  (at level 61, m at next level, right associativity).
Notation "m ;;; k" := (mbind m (fun _ => k))
  (at level 61, right associativity).

Definition raise {A} (e : exc) : M A := fun w => (Err e, w).

Definition lift {A} (r : res A) : M A := fun w => (r, w).

Fixpoint mapM {A B} (f : A -> M B) (xs : list A) : M (list B) :=
  match xs with
  | [] => mret []
  | x :: xs' => y <- f x ;; ys <- mapM f xs' ;; mret (y :: ys)
  end.

Definition emit (ev : event) : M unit :=
  fun w => (Ok tt, mkWorld w.(w_stdin) w.(w_stdout) w.(w_log)
                      (w.(w_events) ++ [ev]) w.(w_heap)).

Definition log_warn (msg : string) : M unit :=
  fun w => (Ok tt, mkWorld w.(w_stdin) w.(w_stdout) (w.(w_log) ++ [msg])
                      w.(w_events) w.(w_heap)).

(** [sys.stdout.write(s)]. *)
Definition write_stdout (s : string) : M unit :=
  fun w => (Ok tt, mkWorld w.(w_stdin) (w.(w_stdout) ++ [s]) w.(w_log)
                      w.(w_events) w.(w_heap)).

Definition py_print (s : string) : M unit :=
  write_stdout (s ++ String (ascii_of_nat 10) EmptyString)%string.

(** [input(prompt)]: [EOFError] at end of input. *)
Definition py_input (prompt : string) : M string :=
  write_stdout prompt ;;;
  fun w => match w.(w_stdin) with
           | [] => (Err EOFError, w)
           | l :: ls => (Ok l, mkWorld ls w.(w_stdout) w.(w_log)
                                  w.(w_events) w.(w_heap))
           end.

Fixpoint heap_lookup (loc : nat) (h : list (nat * pydict)) : option pydict :=
  match h with
  | [] => None
  | (l, d) :: h' => if Nat.eqb loc l then Some d else heap_lookup loc h'
  end.

Fixpoint heap_store (loc : nat) (d : pydict) (h : list (nat * pydict)) :=
  match h with
  | [] => [(loc, d)]
  | (l, d') :: h' =>
      if Nat.eqb loc l then (l, d) :: h' else (l, d') :: heap_store loc d h'
  end.

Definition heap_read (loc : nat) : M pydict :=
  fun w => (of_option TypeError (heap_lookup loc w.(w_heap)), w).

Definition heap_write (loc : nat) (d : pydict) : M unit :=
  fun w => (Ok tt, mkWorld w.(w_stdin) w.(w_stdout) w.(w_log) w.(w_events)
                      (heap_store loc d w.(w_heap))).

(** A fresh dict object at a location not in use. *)
Definition heap_alloc (d : pydict) : M nat :=
  fun w => let loc := S (fold_right (fun p m => Nat.max (fst p) m) 0 w.(w_heap)) in
           (Ok loc, mkWorld w.(w_stdin) w.(w_stdout) w.(w_log) w.(w_events)
                      (w.(w_heap) ++ [(loc, d)])).

Definition nl : string := String (ascii_of_nat 10) EmptyString.

(** [str.lower()] on ASCII text. *)
Definition ascii_lower (c : ascii) : ascii :=
  let n := nat_of_ascii c in
  if (65 <=? n) && (n <=? 90) then ascii_of_nat (n + 32) else c.

Definition py_lower (s : string) : string :=
  string_of_list_ascii (map ascii_lower (list_ascii_of_string s)).

(** [Skipping aospy calculation `{0}` ... traceback: \n{1}], formatted. *)
Definition skip_msg (calc_s traceback : string) : string :=
  ("Skipping aospy calculation `" ++ calc_s ++
   "` due to error with the following traceback: " ++ nl ++ traceback)%string.

(** [_user_verify(input_func, prompt)]. *)
Definition _user_verify_prompt : string := "Perform these computations? [y/n] ".

Definition _user_verify (prompt : string) : M unit :=
  answer <- py_input prompt ;;
  match py_lower answer with
  | EmptyString => raise IndexError
  | String c _ => if Ascii.eqb c "y"%char then mret tt else raise AospyException
  end.

(** [_compute_or_skip_on_error(calc, compute_kwargs)]: [except Exception]
    catches exactly the exceptions with [is_Exception]. *)
Definition _compute_or_skip_on_error (c : calc) (compute_kwargs : pydict) : M pyval :=
  emit (EvCompute c.(calc_str)) ;;;
  match c.(calc_compute) compute_kwargs with
  | Returns v => mret v
  | Raises e tb =>
      if is_Exception e
      then log_warn (skip_msg c.(calc_str) tb) ;;; mret PNone
      else raise e
  end.

(** *** [multiprocess.Pool().map]

    The list is cut into chunks of [chunksize] (CPython's rule); each chunk
    is a task that a worker runs on a copy of the parent's memory, only its
    log output and its calls reaching the shared world.  Tasks complete in
    the order [pool_order (number of tasks)], chosen by the scheduler; each
    result is stored in the slot of its task. *)
Section Pool.
Variable cpu_count : nat.
Variable pool_order : nat -> list nat.

Definition pool_processes : nat := Nat.max 1 cpu_count.

Definition map_chunksize (n : nat) : nat :=
  if Nat.eqb n 0 then 0
  else let d := pool_processes * 4 in
       if Nat.eqb (n mod d) 0 then n / d else S (n / d).

Fixpoint chunks_fuel {A} (fuel size : nat) (xs : list A) : list (list A) :=
  match fuel with
  | 0 => []
  | S fuel' =>
      match xs with
      | [] => []
      | _ => firstn size xs :: chunks_fuel fuel' size (skipn size xs)
      end
  end.

Definition chunks {A} (size : nat) (xs : list A) : list (list A) :=
  chunks_fuel (length xs) size xs.

Definition worker_merge (parent after : world) : world :=
  mkWorld parent.(w_stdin) parent.(w_stdout) after.(w_log) after.(w_events)
          parent.(w_heap).

Fixpoint run_tasks {A B} (f : A -> M B) (order : list nat) (tasks : list (list A))
  (w : world) : list (nat * res (list B)) * world :=
  match order with
  | [] => ([], w)
  | i :: order' =>
      match nth_error tasks i with
      | None => run_tasks f order' tasks w
      | Some task =>
          let '(r, w1) := mapM f task w in
          let '(rs, w2) := run_tasks f order' tasks (worker_merge w w1) in
          ((i, r) :: rs, w2)
      end
  end.

Fixpoint assoc_nat {B} (i : nat) (rs : list (nat * B)) : option B :=
  match rs with
  | [] => None
  | (j, b) :: rs' => if Nat.eqb i j then Some b else assoc_nat i rs'
  end.

(** A task that never reports (its worker died on a [BaseException]) blocks
    the call. *)
Fixpoint gather {B} (rs : list (nat * res (list B))) (idxs : list nat) : res (list B) :=
  match idxs with
  | [] => Ok []
  | i :: idxs' =>
      match assoc_nat i rs with
      | Some (Ok ys) => let? rest := gather rs idxs' in Ok (ys ++ rest)
      | _ => Err PoolBlocked
      end
  end.

(** The first task to report an [Exception] fails the call. *)
Definition pool_collect {B} (rs : list (nat * res (list B))) (n : nat) : res (list B) :=
  match find (fun ir => match snd ir with Err e => is_Exception e | Ok _ => false end) rs with
  | Some (_, Err e) => Err e
  | _ => gather rs (seq 0 n)
  end.

Definition pool_map {A B} (f : A -> M B) (xs : list A) : M (list B) :=
  fun w =>
    let tasks := chunks (map_chunksize (length xs)) xs in
    let '(rs, w') := run_tasks f (pool_order (length tasks)) tasks w in
    (pool_collect rs (length tasks), w').

(** [_exec_calcs(calcs, parallelize, **compute_kwargs )]. *)
Definition _exec_calcs (calcs : list calc) (parallelize : bool) (compute_kwargs : pydict)
  : M (list pyval) :=
  if parallelize
  then pool_map (fun c => _compute_or_skip_on_error c compute_kwargs) calcs
  else mapM (fun c => _compute_or_skip_on_error c compute_kwargs) calcs.

End Pool.

(** *** Unit construction and the submission entry point

    [Calc_construct] is [Calc(CalcInterface( **sp))], external to this
    module; [pformat] is [pprint.pformat]. *)
Section Submit.
Variable Calc_construct : pydict -> res calc.
Variable pformat : pydict -> string.
Variable cpu_count : nat.
Variable pool_order : nat -> list nat.

Definition create_calcs (suite : CalcSuite) : M (list calc) :=
  sps <- lift (_combine_core_aux_specs suite) ;;
  mapM (fun sp => emit (EvConstruct sp) ;;; lift (Calc_construct sp)) sps.

Definition _print_suite_summary (calc_suite_specs : pydict) : string :=
  (nl ++ "Requested aospy calculations:" ++ nl ++ pformat calc_suite_specs ++ nl)%string.

(** [submit_mult_calcs(calc_suite_specs, exec_options)]: [exec_options] is
    [None] or the heap location of the caller's dict. *)
Definition submit_mult_calcs (calc_suite_specs : pydict) (exec_options : option nat)
  : M (list pyval) :=
  loc <- match exec_options with
         | None => heap_alloc []
         | Some l => mret l
         end ;;
  opts <- heap_read loc ;;
  let '(prompt_verify, opts') := dict_pop_default "prompt_verify" (PBool false) opts in
  heap_write loc opts' ;;;
  (if truthy prompt_verify
   then py_print (_print_suite_summary calc_suite_specs) ;;;
        _user_verify _user_verify_prompt
   else mret tt) ;;;
  calc_suite <- lift (CalcSuite_init calc_suite_specs) ;;
  calcs <- create_calcs calc_suite ;;
  kwargs <- heap_read loc ;;
  (* [_exec_calcs(calcs, **exec_options )]: a 'calcs' key collides with the
     positional argument. *)
  match dict_get "calcs" kwargs with
  | Some _ => raise TypeError
  | None =>
      let '(parallelize, compute_kwargs) :=
        dict_pop_default "parallelize" (PBool false) kwargs in
      _exec_calcs cpu_count pool_order calcs (truthy parallelize) compute_kwargs
  end.

End Submit.

(** * Properties *)

(** ** General facts about the model *)

Lemma rbind_ok {A B} (a : A) (k : A -> res B) : rbind (Ok a) k = k a.
Proof. reflexivity. Qed.

Lemma rbind_err {A B} (e : exc) (k : A -> res B) : rbind (Err e) k = Err e.
Proof. reflexivity. Qed.

Lemma py_eq_str_true (v : pyval) (s : string) : py_eq_str v s = true <-> v = PStr s.
Proof.
  destruct v; simpl; split; intro H; try discriminate.
  - apply String.eqb_eq in H; now subst.
  - inversion H; subst; apply String.eqb_refl.
Qed.

Lemma concat_mapR_err {A B} (f : A -> res (list B)) (xs : list A) :
  (exists x e, In x xs /\ f x = Err e) -> exists e, concat_mapR f xs = Err e.
Proof.
  unfold concat_mapR. intros (x & e & Hin & Hx).
  enough (exists e', mapR f xs = Err e') as [e' He'] by (rewrite He'; simpl; eauto).
  induction xs as [|y ys IH]; [destruct Hin|].
  simpl. destruct Hin as [<- | Hin].
  - rewrite Hx; simpl; eauto.
  - destruct (f y); simpl; [|eauto].
    destruct (IH Hin) as [e' ->]; simpl; eauto.
Qed.

(** Resolution of one core field, and the core traversal. *)
Section CoreFacts.
Variable self : CalcSuite.

Lemma get_requested_spec_tag (obj : pyval) (name tag : string) :
  dict_get name self.(_specs_in) = Some (PStr tag) ->
  _get_requested_spec self obj name = _get_attr_by_tag obj tag name.
Proof. intro H. unfold _get_requested_spec, dict_getitem. now rewrite H. Qed.

Lemma get_requested_spec_explicit (obj v : pyval) (name : string) :
  dict_get name self.(_specs_in) = Some v ->
  (forall s, v <> PStr s) ->
  _get_requested_spec self obj name = Ok v.
Proof.
  intros H Hv. unfold _get_requested_spec, dict_getitem. rewrite H. simpl.
  destruct v; try reflexivity. exfalso; eapply Hv; reflexivity.
Qed.

End CoreFacts.

Definition coll (is_set : bool) (xs : list pyval) : pyval :=
  if is_set then PSet xs else PList xs.

Lemma iter_coll (b : bool) (xs : list pyval) : iter_py (coll b xs) = Ok xs.
Proof. now destruct b. Qed.

Lemma getattr_fail (obj : pyval) (name : string) :
  (forall v, getattr obj name <> Ok v) -> getattr obj name = Err AttributeError.
Proof.
  intro H. unfold getattr in *. destruct obj; try reflexivity.
  destruct (dict_get name attrs) eqn:E; simpl in *; [|reflexivity].
  exfalso; eapply H; reflexivity.
Qed.

(** ** Resolution of [date_ranges] *)

(** C8: [date_ranges = "default"] resolves to the one-element sequence
    [["default"]]; any other supplied value is returned unchanged. *)
Theorem get_date_ranges_spec (self : CalcSuite) (v : pyval) :
  dict_get "date_ranges" self.(_specs_in) = Some v ->
  (v = PStr "default" -> _get_date_ranges self = Ok (PList [PStr "default"])) /\
  (v <> PStr "default" -> _get_date_ranges self = Ok v).
Proof.
  intro H. unfold _get_date_ranges, dict_getitem. rewrite H. simpl.
  split; intro Hv.
  - subst v. reflexivity.
  - destruct (py_eq_str v "default") eqn:E; [|reflexivity].
    apply py_eq_str_true in E. contradiction.
Qed.

Definition suite_dr_default :=
  mkCalcSuite [("date_ranges", PStr "default")]%string PNone.
Definition suite_dr_explicit :=
  mkCalcSuite [("date_ranges", PList [PStr "1980-1990"])]%string PNone.

Lemma get_date_ranges_spec_witness :
  _get_date_ranges suite_dr_default = Ok (PList [PStr "default"]) /\
  _get_date_ranges suite_dr_explicit = Ok (PList [PStr "1980-1990"]).
Proof.
  split.
  - apply (proj1 (get_date_ranges_spec suite_dr_default (PStr "default") eq_refl)).
    reflexivity.
  - apply (proj2 (get_date_ranges_spec suite_dr_explicit
                    (PList [PStr "1980-1990"]) eq_refl)).
    discriminate.
Defined.

(** ** Tag-based resolution of the core fields *)

(** C2 (as amended): a core field given as a string tag fails with
    [KeyError] (a [LookupError]) when the tag is neither "all" nor
    "default", and with [AttributeError], which is not a [LookupError], when
    the tag-modified attribute is absent; a failure of any resolution met in
    the core traversal makes the whole suite expansion fail, with no result
    sequence. *)
Theorem core_resolution_failures (self : CalcSuite) :
  (forall obj tag attr_name,
      tag <> "all"%string -> tag <> "default"%string ->
      _get_attr_by_tag obj tag attr_name = Err KeyError /\
      is_LookupError KeyError = true) /\
  (forall obj tag attr_name modifier,
      dict_get tag _TAG_ATTR_MODIFIERS = Some modifier ->
      (forall v, getattr obj (modifier ++ attr_name)%string <> Ok v) ->
      _get_attr_by_tag obj tag attr_name = Err AttributeError /\
      is_LookupError AttributeError = false) /\
  (forall e,
      _get_requested_spec self self.(_obj_lib) _PROJECTS_STR = Err e ->
      _combine_core_aux_specs self = Err e) /\
  (forall pv ps,
      _get_requested_spec self self.(_obj_lib) _PROJECTS_STR = Ok pv ->
      iter_py pv = Ok ps ->
      (exists p e, In p ps /\ _get_requested_spec self p _MODELS_STR = Err e) ->
      exists e, _combine_core_aux_specs self = Err e) /\
  (forall pv ps,
      _get_requested_spec self self.(_obj_lib) _PROJECTS_STR = Ok pv ->
      iter_py pv = Ok ps ->
      (exists p mv ms m e, In p ps /\
         _get_requested_spec self p _MODELS_STR = Ok mv /\ iter_py mv = Ok ms /\
         In m ms /\ _get_requested_spec self m _RUNS_STR = Err e) ->
      exists e, _combine_core_aux_specs self = Err e).
Proof.
  split; [|split; [|split; [|split]]].
  - intros obj tag attr_name H1 H2. split; [|reflexivity].
    unfold _get_attr_by_tag, dict_getitem, _TAG_ATTR_MODIFIERS. simpl.
    destruct (String.eqb tag "all") eqn:E1; [apply String.eqb_eq in E1; contradiction|].
    destruct (String.eqb tag "default") eqn:E2; [apply String.eqb_eq in E2; contradiction|].
    reflexivity.
  - intros obj tag attr_name modifier Hm Ha. split; [|reflexivity].
    unfold _get_attr_by_tag, dict_getitem. rewrite Hm. simpl.
    now apply getattr_fail.
  - intros e He. unfold _combine_core_aux_specs, _permute_core_specs.
    now rewrite He.
  - intros pv ps Hp Hi Hex.
    assert (exists e, _permute_core_specs self = Err e) as [e He].
    { unfold _permute_core_specs. rewrite Hp; simpl; rewrite Hi; simpl.
      apply concat_mapR_err. destruct Hex as (p & e & Hin & He).
      exists p, e. split; [exact Hin|]. now rewrite He. }
    exists e. unfold _combine_core_aux_specs. now rewrite He.
  - intros pv ps Hp Hi Hex.
    assert (exists e, _permute_core_specs self = Err e) as [e He].
    { unfold _permute_core_specs. rewrite Hp; simpl; rewrite Hi; simpl.
      apply concat_mapR_err. destruct Hex as (p & mv & ms & m & e & Hin & Hm & Hms & Hinm & He).
      assert (exists e', concat_mapR (fun model =>
          let? runs := _get_requested_spec self model _RUNS_STR in
          let? rs := iter_py runs in
          Ok (map (fun run => core_tree p model run) rs)) ms = Err e') as [e' He'].
      { apply concat_mapR_err. exists m, e. split; [exact Hinm|]. now rewrite He. }
      exists p, e'. split; [exact Hin|]. rewrite Hm. simpl. rewrite Hms. simpl. exact He'. }
    exists e. unfold _combine_core_aux_specs. now rewrite He.
Qed.

Definition proj_without_default :=
  PObj 31 ["Proj"; "object"]%string [("name", PStr "A"); ("models", PList [])]%string.

Lemma core_resolution_failures_witness :
  (_get_attr_by_tag proj_without_default "every" "models" = Err KeyError /\
   is_LookupError KeyError = true) /\
  (_get_attr_by_tag proj_without_default "default" "models" = Err AttributeError /\
   is_LookupError AttributeError = false).
Proof.
  split.
  - apply (proj1 (core_resolution_failures (mkCalcSuite [] PNone)));
      discriminate.
  - apply (proj1 (proj2 (core_resolution_failures (mkCalcSuite [] PNone)))
             proj_without_default "default"%string "models"%string "default_"%string
             eq_refl).
    intros v Hv. discriminate.
Defined.

(** C2, refuted as stated: looking up the absent attribute [default_models]
    fails with [AttributeError], which is not a [LookupError]. *)
Lemma missing_default_attr_not_lookup_error :
  _get_attr_by_tag proj_without_default "default" "models" = Err AttributeError /\
  is_LookupError AttributeError = false.
Proof. split; reflexivity. Qed.

(** ** Nested core expansion *)

Lemma get_attr_by_tag_all (obj : pyval) (name : string) :
  _get_attr_by_tag obj "all" name = getattr obj name.
Proof. reflexivity. Qed.

(** C3: with [projects = [A]], [models = "all"], [runs = "all"], and
    [A.models = {m1, m2}], [m1.runs = {r1}], [m2.runs = {r2, r3}] (each a
    list or a set), the core expansion yields exactly the triples
    (A,m1,r1), (A,m2,r2), (A,m2,r3), in this order: one per path of the
    hierarchy. *)
Theorem permute_core_specs_paths (self : CalcSuite)
    (A m1 m2 r1 r2 r3 : pyval) (bA b1 b2 : bool) :
  dict_get _PROJECTS_STR self.(_specs_in) = Some (PList [A]) ->
  dict_get _MODELS_STR self.(_specs_in) = Some (PStr "all") ->
  dict_get _RUNS_STR self.(_specs_in) = Some (PStr "all") ->
  getattr A _MODELS_STR = Ok (coll bA [m1; m2]) ->
  getattr m1 _RUNS_STR = Ok (coll b1 [r1]) ->
  getattr m2 _RUNS_STR = Ok (coll b2 [r2; r3]) ->
  _permute_core_specs self =
    Ok [core_tree A m1 r1; core_tree A m2 r2; core_tree A m2 r3].
Proof.
  intros Hp Hm Hr HA H1 H2.
  unfold _permute_core_specs.
  rewrite (get_requested_spec_explicit self _ _ _ Hp) by discriminate.
  simpl. unfold concat_mapR. simpl.
  rewrite (get_requested_spec_tag self A _ _ Hm), get_attr_by_tag_all, HA.
  simpl. rewrite iter_coll. simpl.
  rewrite (get_requested_spec_tag self m1 _ _ Hr), get_attr_by_tag_all, H1.
  simpl. rewrite iter_coll. simpl.
  rewrite (get_requested_spec_tag self m2 _ _ Hr), get_attr_by_tag_all, H2.
  simpl. rewrite iter_coll. reflexivity.
Qed.

Definition ex_r1 := PObj 11 ["Run"]%string [(_RUNS_STR, PNone)].
Definition ex_r2 := PObj 12 ["Run"]%string [].
Definition ex_r3 := PObj 13 ["Run"]%string [].
Definition ex_m1 := PObj 21 ["Model"]%string [(_RUNS_STR, PSet [ex_r1])].
Definition ex_m2 := PObj 22 ["Model"]%string [(_RUNS_STR, PList [ex_r2; ex_r3])].
Definition ex_A := PObj 31 ["Proj"]%string [(_MODELS_STR, PList [ex_m1; ex_m2])].
Definition ex_lib := PObj 1 ["module"]%string [(_PROJECTS_STR, PList [ex_A])].
Definition ex_core_suite :=
  mkCalcSuite [(_OBJ_LIB_STR, ex_lib); (_PROJECTS_STR, PList [ex_A]);
               (_MODELS_STR, PStr "all"); (_RUNS_STR, PStr "all")] ex_lib.

Lemma permute_core_specs_paths_witness :
  _permute_core_specs ex_core_suite =
    Ok [core_tree ex_A ex_m1 ex_r1; core_tree ex_A ex_m2 ex_r2;
        core_tree ex_A ex_m2 ex_r3].
Proof.
  apply (permute_core_specs_paths ex_core_suite ex_A ex_m1 ex_m2 ex_r1 ex_r2 ex_r3
           false true false); reflexivity.
Defined.

(** The combination (A,m1,r2) is not produced. *)
Lemma permute_core_specs_no_cross :
  ~ In (core_tree ex_A ex_m1 ex_r2)
       [core_tree ex_A ex_m1 ex_r1; core_tree ex_A ex_m2 ex_r2;
        core_tree ex_A ex_m2 ex_r3].
Proof. simpl. intuition discriminate. Qed.

(** A project whose [models] attribute is a dict (as [Proj] stores it,
    keyed by name) is iterated over its keys: the run lookup is then made
    on a model name, a string, and fails. *)
Lemma permute_core_specs_dict_models :
  let A := PObj 31 ["Proj"]%string [(_MODELS_STR, PDict [("m1", ex_m1)])]%string in
  _permute_core_specs
    (mkCalcSuite [(_OBJ_LIB_STR, ex_lib); (_PROJECTS_STR, PList [A]);
                  (_MODELS_STR, PStr "all"); (_RUNS_STR, PStr "all")] ex_lib)
  = Err AttributeError.
Proof. reflexivity. Qed.

(** ** The execution harness *)

Definition substring (s t : string) : Prop :=
  exists a b, t = (a ++ s ++ b)%string.

Lemma string_app_assoc (a b c : string) :
  (a ++ b ++ c)%string = ((a ++ b) ++ c)%string.
Proof. induction a as [|x a IH]; simpl; [reflexivity | now rewrite IH]. Qed.

Lemma string_app_empty_r (a : string) : (a ++ EmptyString)%string = a.
Proof. induction a as [|x a IH]; simpl; [reflexivity | now rewrite IH]. Qed.

Lemma skip_msg_mentions (calc_s traceback : string) :
  substring calc_s (skip_msg calc_s traceback) /\
  substring traceback (skip_msg calc_s traceback).
Proof.
  unfold skip_msg, substring. split.
  - exists "Skipping aospy calculation `"%string. eexists. reflexivity.
  - exists ("Skipping aospy calculation `" ++ calc_s ++
            "` due to error with the following traceback: " ++ nl)%string.
    exists EmptyString.
    rewrite string_app_empty_r, !string_app_assoc. reflexivity.
Qed.

Section Harness.
Variable compute_kwargs : pydict.

(** What the harness records for one unit: its result slot ... *)
Definition unit_result (c : calc) : pyval :=
  match c.(calc_compute) compute_kwargs with
  | Returns v => v
  | Raises _ _ => PNone
  end.

(** ... and its warning. *)
Definition unit_log (c : calc) : list string :=
  match c.(calc_compute) compute_kwargs with
  | Returns _ => []
  | Raises _ tb => [skip_msg c.(calc_str) tb]
  end.

Definition batch_log (calcs : list calc) : list string := flat_map unit_log calcs.

Definition batch_events (calcs : list calc) : list event :=
  map (fun c => EvCompute c.(calc_str)) calcs.

Definition w_add (w : world) (logs : list string) (evs : list event) : world :=
  mkWorld w.(w_stdin) w.(w_stdout) (w.(w_log) ++ logs) (w.(w_events) ++ evs)
          w.(w_heap).

Lemma w_add_add (w : world) l1 e1 l2 e2 :
  w_add (w_add w l1 e1) l2 e2 = w_add w (l1 ++ l2) (e1 ++ e2).
Proof. unfold w_add. simpl. now rewrite !app_assoc. Qed.

(** A unit raises, if at all, an exception caught by [except Exception]. *)
Definition caught (c : calc) : Prop :=
  forall e tb, c.(calc_compute) compute_kwargs = Raises e tb -> is_Exception e = true.

Lemma compute_or_skip_caught (c : calc) (w : world) :
  caught c ->
  _compute_or_skip_on_error c compute_kwargs w =
    (Ok (unit_result c), w_add w (unit_log c) [EvCompute c.(calc_str)]).
Proof.
  intro Hc. unfold _compute_or_skip_on_error, unit_result, unit_log, mbind, emit.
  simpl. destruct (calc_compute c compute_kwargs) as [v | e tb] eqn:E.
  - unfold mret, w_add. simpl. now rewrite app_nil_r.
  - rewrite (Hc e tb E). unfold log_warn, mret, w_add. simpl. reflexivity.
Qed.

Lemma sequential_batch (calcs : list calc) (w : world) :
  Forall caught calcs ->
  mapM (fun c => _compute_or_skip_on_error c compute_kwargs) calcs w =
    (Ok (map unit_result calcs), w_add w (batch_log calcs) (batch_events calcs)).
Proof.
  revert w. induction calcs as [|c cs IH]; intros w Hall.
  - unfold w_add. simpl. rewrite !app_nil_r. now destruct w.
  - inversion Hall as [|? ? Hc Hcs]; subst.
    simpl. unfold mbind at 1. rewrite compute_or_skip_caught by exact Hc.
    unfold mbind. rewrite (IH _ Hcs). unfold mret. rewrite w_add_add. reflexivity.
Qed.

End Harness.

Lemma chunks_fuel_concat {A} (fuel size : nat) (xs : list A) :
  1 <= size -> length xs <= fuel -> concat (chunks_fuel fuel size xs) = xs.
Proof.
  revert xs. induction fuel as [|fuel IH]; intros xs Hs Hl.
  - destruct xs; [reflexivity | simpl in Hl; lia].
  - destruct xs as [|x xs']; [reflexivity|].
    cbn [chunks_fuel concat]. rewrite IH.
    + apply firstn_skipn.
    + exact Hs.
    + rewrite length_skipn. cbn [length] in *. lia.
Qed.

Lemma map_nth_seq {A} (l : list A) (d : A) :
  map (fun i => nth i l d) (seq 0 (length l)) = l.
Proof.
  induction l as [|x l IH]; [reflexivity|].
  simpl. f_equal. rewrite <- seq_shift, map_map. exact IH.
Qed.

Lemma assoc_nat_map {B} (g : nat -> B) (order : list nat) (i : nat) :
  In i order -> assoc_nat i (map (fun j => (j, g j)) order) = Some (g i).
Proof.
  induction order as [|j order IH]; simpl; [tauto|].
  intros [-> | Hin].
  - now rewrite Nat.eqb_refl.
  - destruct (Nat.eqb i j) eqn:E; [apply Nat.eqb_eq in E; now subst | now apply IH].
Qed.

Lemma gather_all {B} (g : nat -> list B) (rs : list (nat * res (list B))) (idxs : list nat) :
  (forall i, In i idxs -> assoc_nat i rs = Some (Ok (g i))) ->
  gather rs idxs = Ok (concat (map g idxs)).
Proof.
  induction idxs as [|i idxs IH]; intro H; [reflexivity|].
  simpl. rewrite (H i (or_introl eq_refl)). simpl.
  rewrite IH by (intros j Hj; apply H; now right). reflexivity.
Qed.

Lemma find_all_ok {B} (g : nat -> list B) (order : list nat) :
  find (fun ir : nat * res (list B) =>
          match snd ir with Err e => is_Exception e | Ok _ => false end)
       (map (fun j => (j, Ok (g j))) order) = None.
Proof. induction order; simpl; auto. Qed.

Section PoolFacts.
Variable cpu_count : nat.
Variable pool_order : nat -> list nat.
Variable kw : pydict.

Lemma map_chunksize_pos (n : nat) : 1 <= n -> 1 <= map_chunksize cpu_count n.
Proof.
  intro Hn. unfold map_chunksize.
  destruct (Nat.eqb n 0) eqn:E0; [apply Nat.eqb_eq in E0; lia|].
  set (d := pool_processes cpu_count * 4).
  assert (Hd : d <> 0) by (unfold d, pool_processes; lia).
  destruct (Nat.eqb (n mod d) 0) eqn:Em; [|lia].
  apply Nat.eqb_eq in Em.
  destruct (n / d) eqn:Eq; [|lia].
  pose proof (Nat.div_mod_eq n d) as Hdm. rewrite Eq, Em in Hdm. lia.
Qed.

Lemma chunks_concat (xs : list calc) :
  concat (chunks (map_chunksize cpu_count (length xs)) xs) = xs.
Proof.
  destruct xs as [|x xs']; [reflexivity|].
  apply chunks_fuel_concat; [apply map_chunksize_pos; simpl; lia | lia].
Qed.

Lemma run_tasks_caught (order : list nat) (tasks : list (list calc)) (w : world) :
  (forall i, In i order -> i < length tasks) ->
  Forall (caught kw) (concat tasks) ->
  run_tasks (fun c => _compute_or_skip_on_error c kw) order tasks w =
    (map (fun i => (i, Ok (map (unit_result kw) (nth i tasks [])))) order,
     w_add w (concat (map (fun i => batch_log kw (nth i tasks [])) order))
             (concat (map (fun i => batch_events (nth i tasks [])) order))).
Proof.
  revert w. induction order as [|i order IH]; intros w Hr Hc.
  - unfold w_add. simpl. rewrite !app_nil_r. now destruct w.
  - simpl. rewrite (nth_error_nth' tasks [] (Hr i (or_introl eq_refl))).
    rewrite sequential_batch.
    2:{ rewrite Forall_forall in *. intros c Hin. apply Hc.
        apply in_concat. exists (nth i tasks []). split; [|exact Hin].
        apply nth_In. apply Hr. now left. }
    assert (Hm : worker_merge w (w_add w (batch_log kw (nth i tasks []))
                   (batch_events (nth i tasks [])))
                 = w_add w (batch_log kw (nth i tasks [])) (batch_events (nth i tasks [])))
      by (now destruct w).
    rewrite Hm, IH; [| intros j Hj; apply Hr; now right | exact Hc].
    rewrite w_add_add. reflexivity.
Qed.

Definition pool_tasks (calcs : list calc) : list (list calc) :=
  chunks (map_chunksize cpu_count (length calcs)) calcs.

Lemma parallel_batch (calcs : list calc) (w : world) :
  (forall n, Permutation (pool_order n) (seq 0 n)) ->
  Forall (caught kw) calcs ->
  pool_map cpu_count pool_order (fun c => _compute_or_skip_on_error c kw) calcs w =
    (Ok (map (unit_result kw) calcs),
     w_add w
       (concat (map (fun i => batch_log kw (nth i (pool_tasks calcs) []))
                    (pool_order (length (pool_tasks calcs)))))
       (concat (map (fun i => batch_events (nth i (pool_tasks calcs) []))
                    (pool_order (length (pool_tasks calcs)))))).
Proof.
  intros Hp Hc. unfold pool_map. fold (pool_tasks calcs).
  assert (Hcat : concat (pool_tasks calcs) = calcs) by apply chunks_concat.
  rewrite run_tasks_caught.
  2:{ intros i Hi. apply (Permutation_in _ (Hp _)) in Hi.
      apply in_seq in Hi. lia. }
  2:{ now rewrite Hcat. }
  unfold pool_collect. rewrite find_all_ok.
  rewrite (gather_all (fun i => map (unit_result kw) (nth i (pool_tasks calcs) []))).
  2:{ intros i Hi.
      apply (assoc_nat_map (fun j => Ok (map (unit_result kw) (nth j (pool_tasks calcs) [])))).
      apply (Permutation_in _ (Permutation_sym (Hp _))). exact Hi. }
  f_equal. f_equal.
  rewrite <- (map_map (fun i => nth i (pool_tasks calcs) []) (map (unit_result kw))).
  rewrite map_nth_seq, <- concat_map, Hcat. reflexivity.
Qed.

End PoolFacts.

Lemma in_some_task (cpu_count : nat) (pool_order : nat -> list nat) (calcs : list calc) (c : calc) :
  (forall n, Permutation (pool_order n) (seq 0 n)) ->
  In c calcs ->
  exists i, In i (pool_order (length (pool_tasks cpu_count calcs))) /\
            In c (nth i (pool_tasks cpu_count calcs) []).
Proof.
  intros Hp Hin.
  rewrite <- (chunks_concat cpu_count calcs) in Hin. fold (pool_tasks cpu_count calcs) in Hin.
  apply in_concat in Hin as [task [Ht Hc]].
  apply (In_nth _ _ []) in Ht as [i [Hi Hnth]].
  exists i. split.
  - apply (Permutation_in _ (Permutation_sym (Hp _))). apply in_seq. lia.
  - now rewrite Hnth.
Qed.

(** A unit raising an exception outside [Exception] stops a sequential run
    right after its own [compute] call: the units before it ran. *)
Lemma sequential_base_exception (kw : pydict) (pre post : list calc) (c : calc)
    (e : exc) (tb : string) (w : world) :
  Forall (caught kw) pre ->
  c.(calc_compute) kw = Raises e tb -> is_Exception e = false ->
  mapM (fun c => _compute_or_skip_on_error c kw) (pre ++ c :: post) w =
    (Err e, w_add w (batch_log kw pre) (batch_events pre ++ [EvCompute c.(calc_str)])).
Proof.
  intros Hpre Hc He. revert w. induction pre as [|c0 pre IH]; intro w.
  - simpl. unfold mbind at 1, _compute_or_skip_on_error, mbind, emit. simpl.
    rewrite Hc, He. unfold raise, w_add. simpl. now rewrite app_nil_r.
  - inversion Hpre as [|? ? Hc0 Hpre']; subst. cbn [app mapM].
    unfold mbind at 1. rewrite compute_or_skip_caught by exact Hc0.
    unfold mbind at 1. rewrite (IH Hpre'). rewrite w_add_add. reflexivity.
Qed.

(** [_compute_or_skip_on_error] lets through only exceptions outside
    [Exception]. *)
Lemma compute_or_skip_err (kw : pydict) (c : calc) (w w' : world) (e : exc) :
  _compute_or_skip_on_error c kw w = (Err e, w') ->
  exists tb, c.(calc_compute) kw = Raises e tb /\ is_Exception e = false.
Proof.
  unfold _compute_or_skip_on_error, mbind, emit. simpl.
  destruct (calc_compute c kw) as [v | e0 tb]; [discriminate|].
  destruct (is_Exception e0) eqn:E; [unfold mbind, log_warn, mret; discriminate|].
  unfold raise. intro H. injection H as <- _. now exists tb.
Qed.

Lemma mapM_compute_err (kw : pydict) (xs : list calc) (w w' : world) (e : exc) :
  mapM (fun c => _compute_or_skip_on_error c kw) xs w = (Err e, w') -> is_Exception e = false.
Proof.
  revert w w'. induction xs as [|x xs IH]; intros w w'; simpl; [discriminate|].
  unfold mbind at 1. destruct (_compute_or_skip_on_error x kw w) as [[v|e0] w1] eqn:E.
  - unfold mbind. destruct (mapM _ xs w1) as [[ys|e1] w2] eqn:E2.
    + unfold mret. discriminate.
    + intro H. injection H as <- _. exact (IH _ _ E2).
  - intro H. injection H as <- _. now apply compute_or_skip_err in E as [? [_ ?]].
Qed.

Lemma mapM_compute_base_err (kw : pydict) (xs : list calc) (c : calc) (e : exc) (tb : string)
    (w : world) :
  In c xs -> c.(calc_compute) kw = Raises e tb -> is_Exception e = false ->
  exists e', fst (mapM (fun c => _compute_or_skip_on_error c kw) xs w) = Err e'.
Proof.
  intros Hin Hc He. revert w. induction xs as [|x xs IH]; intro w; [destruct Hin|]. simpl.
  unfold mbind at 1. destruct (_compute_or_skip_on_error x kw w) as [[v|e0] w1] eqn:E.
  - destruct Hin as [-> | Hin].
    + unfold _compute_or_skip_on_error, mbind, emit in E. simpl in E.
      rewrite Hc, He in E. discriminate.
    + unfold mbind. destruct (IH Hin w1) as [e1 He1].
      destruct (mapM _ xs w1) as [[ys|e2] w2]; simpl in He1; [discriminate|].
      now exists e2.
  - now exists e0.
Qed.

Lemma run_tasks_assoc {B} (f : calc -> M B) (order : list nat) (tasks : list (list calc))
    (i : nat) (w : world) :
  (forall j, In j order -> j < length tasks) -> In i order ->
  exists w', assoc_nat i (fst (run_tasks f order tasks w)) = Some (fst (mapM f (nth i tasks []) w')).
Proof.
  revert w. induction order as [|j order IH]; intros w Hr Hi; [destruct Hi|]. simpl.
  rewrite (nth_error_nth' tasks [] (Hr j (or_introl eq_refl))).
  destruct (mapM f (nth j tasks []) w) as [r w1] eqn:E.
  destruct (run_tasks f order tasks (worker_merge w w1)) as [rs w2] eqn:E2. simpl.
  destruct (Nat.eqb i j) eqn:Eij.
  - apply Nat.eqb_eq in Eij. subst. exists w. now rewrite E.
  - destruct Hi as [-> | Hi]; [now rewrite Nat.eqb_refl in Eij|].
    destruct (IH (worker_merge w w1) (fun k Hk => Hr k (or_intror Hk)) Hi) as [w' Hw'].
    rewrite E2 in Hw'. now exists w'.
Qed.

Lemma run_tasks_errors (kw : pydict) (order : list nat) (tasks : list (list calc)) (w : world) :
  forall ir, In ir (fst (run_tasks (fun c => _compute_or_skip_on_error c kw) order tasks w)) ->
  forall e, snd ir = Err e -> is_Exception e = false.
Proof.
  revert w. induction order as [|j order IH]; intros w ir Hin e He; [destruct Hin|].
  simpl in Hin. destruct (nth_error tasks j) as [task|]; [|exact (IH _ _ Hin _ He)].
  destruct (mapM _ task w) as [r w1] eqn:E.
  destruct (run_tasks _ order tasks (worker_merge w w1)) as [rs w2] eqn:E2.
  simpl in Hin. destruct ir as [i r0]. destruct Hin as [Heq | Hin]; [injection Heq as <- <-|].
  - simpl in He. subst r. exact (mapM_compute_err _ _ _ _ _ E).
  - apply (IH (worker_merge w w1) (i, r0)); [rewrite E2; exact Hin | exact He].
Qed.

Lemma gather_blocked {B} (rs : list (nat * res (list B))) (idxs : list nat) (i : nat) (e : exc) :
  In i idxs -> assoc_nat i rs = Some (Err e) -> gather rs idxs = Err PoolBlocked.
Proof.
  induction idxs as [|i0 idxs IH]; intros Hin Hi; [destruct Hin|]. simpl.
  destruct (assoc_nat i0 rs) as [[ys|e0]|] eqn:E; [|reflexivity|reflexivity].
  destruct Hin as [-> | Hin]; [congruence|]. now rewrite (IH Hin Hi).
Qed.

Lemma find_none_all {A} (f : A -> bool) (l : list A) :
  (forall x, In x l -> f x = false) -> find f l = None.
Proof.
  induction l as [|x l IH]; intro H; simpl; [reflexivity|].
  rewrite (H x (or_introl eq_refl)). apply IH. intros y Hy. apply H. now right.
Qed.

(** C4 (as amended): in a batch where every failing unit raises an
    exception of class [Exception] (e.g. [ValueError]), in both dispatch
    modes, each failing unit's slot holds [None], every other slot holds the
    unit's own result, every unit is executed, and for each failing unit a
    warning naming the unit and carrying its traceback is logged; no error
    reaches the caller.  An exception outside [Exception]
    ([KeyboardInterrupt], [SystemExit]) is not caught: sequentially, the
    first one aborts the batch and reaches the caller, no later unit being
    computed; in parallel, the pool call never returns. *)
Theorem exec_calcs_isolates_failures (cpu_count : nat) (pool_order : nat -> list nat)
    (kw : pydict) :
  (forall n, Permutation (pool_order n) (seq 0 n)) ->
  (forall (calcs : list calc) (parallelize : bool) (w : world),
   Forall (caught kw) calcs ->
   exists w',
     _exec_calcs cpu_count pool_order calcs parallelize kw w
       = (Ok (map (unit_result kw) calcs), w') /\
     (forall c, In c calcs -> In (EvCompute c.(calc_str)) w'.(w_events)) /\
     (forall c e tb, In c calcs -> c.(calc_compute) kw = Raises e tb ->
        exists msg, In msg w'.(w_log) /\
                    substring c.(calc_str) msg /\ substring tb msg)) /\
  (forall (pre post : list calc) (c : calc) (e : exc) (tb : string) (w : world),
   Forall (caught kw) pre -> c.(calc_compute) kw = Raises e tb -> is_Exception e = false ->
   _exec_calcs cpu_count pool_order (pre ++ c :: post) false kw w =
     (Err e, w_add w (batch_log kw pre) (batch_events pre ++ [EvCompute c.(calc_str)]))) /\
  (forall (calcs : list calc) (c : calc) (e : exc) (tb : string) (w : world),
   In c calcs -> c.(calc_compute) kw = Raises e tb -> is_Exception e = false ->
   fst (_exec_calcs cpu_count pool_order calcs true kw w) = Err PoolBlocked).
Proof.
  intro Hp. split; [|split].
  - intros calcs parallelize w Hc.
    unfold _exec_calcs. destruct parallelize.
    + rewrite parallel_batch by assumption.
      eexists. split; [reflexivity|]. split.
      * intros c Hin. destruct (in_some_task cpu_count pool_order calcs c Hp Hin) as [i [Hi Hct]].
        unfold w_add. simpl. apply in_or_app. right.
        apply in_concat. eexists. split; [apply in_map; exact Hi|].
        unfold batch_events. apply (in_map (fun c => EvCompute (calc_str c))). exact Hct.
      * intros c e tb Hin Hr.
        exists (skip_msg c.(calc_str) tb). split; [|apply skip_msg_mentions].
        destruct (in_some_task cpu_count pool_order calcs c Hp Hin) as [i [Hi Hct]].
        unfold w_add. simpl. apply in_or_app. right.
        apply in_concat. eexists. split; [apply in_map; exact Hi|].
        unfold batch_log. apply in_flat_map. exists c. split; [exact Hct|].
        unfold unit_log. rewrite Hr. now left.
    + rewrite sequential_batch by assumption.
      eexists. split; [reflexivity|]. split.
      * intros c Hin. unfold w_add. simpl. apply in_or_app. right.
        unfold batch_events. apply (in_map (fun c => EvCompute (calc_str c))). exact Hin.
      * intros c e tb Hin Hr.
        exists (skip_msg c.(calc_str) tb). split; [|apply skip_msg_mentions].
        unfold w_add. simpl. apply in_or_app. right.
        unfold batch_log. apply in_flat_map. exists c. split; [exact Hin|].
        unfold unit_log. rewrite Hr. now left.
  - intros pre post c e tb w Hpre Hc He. unfold _exec_calcs.
    exact (sequential_base_exception kw pre post c e tb w Hpre Hc He).
  - intros calcs c e tb w Hin Hc He. unfold _exec_calcs, pool_map.
    fold (pool_tasks cpu_count calcs).
    destruct (in_some_task cpu_count pool_order calcs c Hp Hin) as [i [Hi Hct]].
    assert (Hr : forall j, In j (pool_order (length (pool_tasks cpu_count calcs))) ->
                 j < length (pool_tasks cpu_count calcs)).
    { intros j Hj. apply (Permutation_in _ (Hp _)) in Hj. apply in_seq in Hj. lia. }
    destruct (run_tasks_assoc (fun c => _compute_or_skip_on_error c kw)
                (pool_order (length (pool_tasks cpu_count calcs))) (pool_tasks cpu_count calcs)
                i w Hr Hi) as [w' Hw'].
    destruct (mapM_compute_base_err kw _ c e tb w' Hct Hc He) as [e' He'].
    rewrite He' in Hw'.
    pose proof (run_tasks_errors kw (pool_order (length (pool_tasks cpu_count calcs)))
                  (pool_tasks cpu_count calcs) w) as Herr.
    destruct (run_tasks _ _ _ w) as [rs w2]. simpl in Hw', Herr |- *.
    unfold pool_collect. rewrite find_none_all.
    + apply (gather_blocked rs _ i e'); [|exact Hw'].
      apply (Permutation_in _ (Hp _)). exact Hi.
    + intros [j r] Hjr. simpl. destruct r as [ys|e0]; [reflexivity|].
      exact (Herr _ Hjr e0 eq_refl).
Qed.

Definition rev_order (n : nat) : list nat := rev (seq 0 n).

Lemma rev_order_perm (n : nat) : Permutation (rev_order n) (seq 0 n).
Proof. apply Permutation_sym, Permutation_rev. Qed.

Definition calc_ok := mkCalc "ok" (fun _ => Returns (PInt 1)).
Definition calc_bad := mkCalc "bad" (fun _ => Raises ValueError "ValueError: no data").
Definition calc_kbd := mkCalc "kbd" (fun _ => Raises KeyboardInterrupt "KeyboardInterrupt").
Definition world0 := mkWorld [] [] [] [] [].

Lemma exec_calcs_isolates_failures_witness :
  (exists w',
    _exec_calcs 2 rev_order [calc_bad; calc_ok; calc_bad] true [] world0
      = (Ok [PNone; PInt 1; PNone], w') /\
    (forall c, In c [calc_bad; calc_ok; calc_bad] -> In (EvCompute c.(calc_str)) w'.(w_events)) /\
    (forall c e tb, In c [calc_bad; calc_ok; calc_bad] -> c.(calc_compute) [] = Raises e tb ->
       exists msg, In msg w'.(w_log) /\
                   substring c.(calc_str) msg /\ substring tb msg)) /\
  _exec_calcs 2 rev_order ([calc_bad] ++ calc_kbd :: [calc_ok]) false [] world0 =
    (Err KeyboardInterrupt,
     w_add world0 (batch_log [] [calc_bad]) (batch_events [calc_bad] ++ [EvCompute "kbd"])) /\
  fst (_exec_calcs 2 rev_order [calc_ok; calc_bad; calc_ok; calc_kbd] true [] world0)
    = Err PoolBlocked.
Proof.
  destruct (exec_calcs_isolates_failures 2 rev_order [] rev_order_perm) as [H1 [H2 H3]].
  split; [|split].
  - apply (H1 [calc_bad; calc_ok; calc_bad] true world0).
    repeat constructor; intros e tb H; simpl in H; inversion H; reflexivity.
  - apply (H2 [calc_bad] [calc_ok] calc_kbd KeyboardInterrupt "KeyboardInterrupt"%string world0).
    + repeat constructor; intros e tb H; simpl in H; inversion H; reflexivity.
    + reflexivity.
    + reflexivity.
  - apply (H3 [calc_ok; calc_bad; calc_ok; calc_kbd] calc_kbd KeyboardInterrupt
             "KeyboardInterrupt"%string world0).
    + simpl. tauto.
    + reflexivity.
    + reflexivity.
Defined.

(** C4, refuted as stated: a unit raising [KeyboardInterrupt] (not an
    [Exception]) aborts the sequential batch, the error reaches the caller and
    the next unit never runs; in parallel mode the pool call never returns. *)
Lemma exec_calcs_base_exception_aborts :
  fst (_exec_calcs 2 rev_order [calc_kbd; calc_ok] false [] world0) = Err KeyboardInterrupt /\
  ~ In (EvCompute "ok") (snd (_exec_calcs 2 rev_order [calc_kbd; calc_ok] false [] world0)).(w_events) /\
  fst (_exec_calcs 2 rev_order [calc_kbd; calc_ok] true [] world0) = Err PoolBlocked.
Proof.
  split; [reflexivity|]. split; [|reflexivity].
  simpl. intros [H | []]. discriminate.
Qed.

(** C7: when no unit raises, parallel and sequential dispatch give the same
    result sequence, in input order, whatever order the pool's tasks
    complete in. *)
Theorem exec_calcs_parallel_matches_sequential (cpu_count : nat)
    (pool_order : nat -> list nat) (calcs : list calc) (kw : pydict) (w : world) :
  (forall n, Permutation (pool_order n) (seq 0 n)) ->
  (forall c, In c calcs -> exists v, c.(calc_compute) kw = Returns v) ->
  fst (_exec_calcs cpu_count pool_order calcs true kw w) =
    fst (_exec_calcs cpu_count pool_order calcs false kw w) /\
  fst (_exec_calcs cpu_count pool_order calcs false kw w) =
    Ok (map (unit_result kw) calcs).
Proof.
  intros Hp Hr.
  assert (Hc : Forall (caught kw) calcs).
  { apply Forall_forall. intros c Hin e tb He.
    destruct (Hr c Hin) as [v Hv]. congruence. }
  unfold _exec_calcs.
  rewrite parallel_batch, sequential_batch by assumption. simpl. split; reflexivity.
Qed.

Definition calc_two := mkCalc "two" (fun kw => Returns (PList (map snd kw))).

Lemma exec_calcs_parallel_matches_sequential_witness :
  fst (_exec_calcs 1 rev_order [calc_ok; calc_two; calc_ok; calc_ok; calc_two] true
         [("year", PInt 2000)]%string world0) =
    fst (_exec_calcs 1 rev_order [calc_ok; calc_two; calc_ok; calc_ok; calc_two] false
         [("year", PInt 2000)]%string world0) /\
  fst (_exec_calcs 1 rev_order [calc_ok; calc_two; calc_ok; calc_ok; calc_two] false
         [("year", PInt 2000)]%string world0) =
    Ok [PInt 1; PList [PInt 2000]; PInt 1; PInt 1; PList [PInt 2000]].
Proof.
  apply (exec_calcs_parallel_matches_sequential 1 rev_order
           [calc_ok; calc_two; calc_ok; calc_ok; calc_two] [("year", PInt 2000)]%string world0).
  - exact rev_order_perm.
  - intros c Hin. simpl in Hin.
    repeat destruct Hin as [<- | Hin]; try destruct Hin; eexists; reflexivity.
Defined.

(** ** The submission entry point *)

(** Computations that leave the heap of dict objects as it was. *)
Definition preserves_heap {A} (m : M A) : Prop :=
  forall w, w_heap (snd (m w)) = w_heap w.

Lemma preserves_mret {A} (a : A) : preserves_heap (mret a).
Proof. intro w. reflexivity. Qed.

Lemma preserves_raise {A} (e : exc) : preserves_heap (@raise A e).
Proof. intro w. reflexivity. Qed.

Lemma preserves_lift {A} (r : res A) : preserves_heap (lift r).
Proof. intro w. reflexivity. Qed.

Lemma preserves_emit (ev : event) : preserves_heap (emit ev).
Proof. intro w. reflexivity. Qed.

Lemma preserves_log_warn (msg : string) : preserves_heap (log_warn msg).
Proof. intro w. reflexivity. Qed.

Lemma preserves_write_stdout (s : string) : preserves_heap (write_stdout s).
Proof. intro w. reflexivity. Qed.

Lemma preserves_py_print (s : string) : preserves_heap (py_print s).
Proof. intro w. reflexivity. Qed.

Lemma preserves_heap_read (loc : nat) : preserves_heap (heap_read loc).
Proof. intro w. reflexivity. Qed.

Lemma preserves_bind {A B} (m : M A) (k : A -> M B) :
  preserves_heap m -> (forall a, preserves_heap (k a)) -> preserves_heap (mbind m k).
Proof.
  intros Hm Hk w. unfold mbind. specialize (Hm w).
  destruct (m w) as [[a | e] w1] eqn:E; simpl in *.
  - rewrite Hk. exact Hm.
  - exact Hm.
Qed.

Lemma preserves_py_input (prompt : string) : preserves_heap (py_input prompt).
Proof.
  apply preserves_bind; [apply preserves_write_stdout|].
  intros _ w. destruct (w_stdin w); reflexivity.
Qed.

Lemma preserves_mapM {A B} (f : A -> M B) (xs : list A) :
  (forall x, preserves_heap (f x)) -> preserves_heap (mapM f xs).
Proof.
  intro Hf. induction xs as [|x xs IH]; simpl.
  - apply preserves_mret.
  - apply preserves_bind; [apply Hf|]. intro y.
    apply preserves_bind; [exact IH|]. intro ys. apply preserves_mret.
Qed.

Lemma run_tasks_heap {A B} (f : A -> M B) (order : list nat) (tasks : list (list A)) (w : world) :
  w_heap (snd (run_tasks f order tasks w)) = w_heap w.
Proof.
  revert w. induction order as [|i order IH]; intro w; [reflexivity|].
  simpl. destruct (nth_error tasks i); [|apply IH].
  destruct (mapM f l w) as [r w1].
  specialize (IH (worker_merge w w1)).
  destruct (run_tasks f order tasks (worker_merge w w1)) as [rs w2].
  simpl in *. exact IH.
Qed.

Lemma preserves_pool_map {A B} (cpu_count : nat) (pool_order : nat -> list nat)
    (f : A -> M B) (xs : list A) :
  preserves_heap (pool_map cpu_count pool_order f xs).
Proof.
  intro w. unfold pool_map.
  pose proof (run_tasks_heap f (pool_order (length (chunks (map_chunksize cpu_count (length xs)) xs)))
                (chunks (map_chunksize cpu_count (length xs)) xs) w) as H.
  destruct (run_tasks _ _ _ w). exact H.
Qed.

Lemma preserves_compute_or_skip (c : calc) (kw : pydict) :
  preserves_heap (_compute_or_skip_on_error c kw).
Proof.
  apply preserves_bind; [apply preserves_emit|]. intros _.
  destruct (calc_compute c kw); [apply preserves_mret|].
  destruct (is_Exception e); [|apply preserves_raise].
  apply preserves_bind; [apply preserves_log_warn|]. intros _. apply preserves_mret.
Qed.

Lemma preserves_exec_calcs (cpu_count : nat) (pool_order : nat -> list nat)
    (calcs : list calc) (parallelize : bool) (kw : pydict) :
  preserves_heap (_exec_calcs cpu_count pool_order calcs parallelize kw).
Proof.
  unfold _exec_calcs. destruct parallelize.
  - apply preserves_pool_map.
  - apply preserves_mapM. intro c. apply preserves_compute_or_skip.
Qed.

Create HintDb heap_frame.
#[export] Hint Resolve preserves_mret preserves_raise preserves_lift preserves_emit
  preserves_log_warn preserves_write_stdout preserves_py_print preserves_heap_read preserves_py_input
  preserves_exec_calcs preserves_compute_or_skip : heap_frame.

Ltac frame_heap :=
  repeat (first
    [ solve [auto with heap_frame]
    | apply preserves_bind; [| intro]
    | apply preserves_mapM; intro
    | match goal with
      | |- preserves_heap (match ?x with _ => _ end) => destruct x
      end ]).

Lemma heap_lookup_store (l loc : nat) (d : pydict) (h : list (nat * pydict)) :
  heap_lookup l (heap_store loc d h) =
    if Nat.eqb l loc then Some d else heap_lookup l h.
Proof.
  induction h as [|[l' d'] h IH]; simpl.
  - destruct (Nat.eqb l loc); reflexivity.
  - destruct (Nat.eqb loc l') eqn:E1; simpl.
    + apply Nat.eqb_eq in E1. subst l'.
      destruct (Nat.eqb l loc); reflexivity.
    + destruct (Nat.eqb l l') eqn:E2.
      * apply Nat.eqb_eq in E2. subst l'.
        destruct (Nat.eqb l loc) eqn:E3; [|reflexivity].
        apply Nat.eqb_eq in E3. subst. rewrite Nat.eqb_refl in E1. discriminate.
      * exact IH.
Qed.

Section DictFacts.
Context {A : Type}.

Lemma dict_get_delete_other (k k' : string) (d : list (string * A)) :
  k' <> k -> dict_get k' (dict_delete k d) = dict_get k' d.
Proof.
  intro Hne. induction d as [|[k0 v0] d IH]; simpl; [reflexivity|].
  destruct (String.eqb k k0) eqn:E.
  - apply String.eqb_eq in E. subst k0.
    apply String.eqb_neq in Hne. now rewrite Hne.
  - simpl. now rewrite IH.
Qed.

Lemma dict_get_none (k : string) (d : list (string * A)) :
  dict_get k d = None <-> ~ In k (map fst d).
Proof.
  induction d as [|[k0 v0] d IH]; simpl; [tauto|].
  destruct (String.eqb k k0) eqn:E.
  - apply String.eqb_eq in E. subst. split; [discriminate | tauto].
  - apply String.eqb_neq in E. rewrite IH. split; intuition.
Qed.

Lemma dict_get_delete_same (k : string) (d : list (string * A)) :
  NoDup (map fst d) -> dict_get k (dict_delete k d) = None.
Proof.
  induction d as [|[k0 v0] d IH]; intro Hnd; simpl; [reflexivity|].
  inversion Hnd as [|? ? Hnin Hnd']; subst.
  destruct (String.eqb k k0) eqn:E.
  - apply String.eqb_eq in E. subst. now apply dict_get_none.
  - simpl. rewrite E. now apply IH.
Qed.

Lemma dict_delete_absent (k : string) (d : list (string * A)) :
  dict_get k d = None -> dict_delete k d = d.
Proof.
  induction d as [|[k0 v0] d IH]; simpl; [reflexivity|].
  destruct (String.eqb k k0); [discriminate|]. intro H. now rewrite IH.
Qed.

Lemma dict_pop_default_delete (k : string) (dflt : A) (d : list (string * A)) :
  snd (dict_pop_default k dflt d) = dict_delete k d.
Proof.
  unfold dict_pop_default. destruct (dict_get k d) eqn:E; [reflexivity|].
  simpl. symmetry. now apply dict_delete_absent.
Qed.

End DictFacts.

Section SubmitFacts.
Variable Calc_construct : pydict -> res calc.
Variable pformat : pydict -> string.
Variable cpu_count : nat.
Variable pool_order : nat -> list nat.

Lemma submit_heap (calc_suite_specs : pydict) (loc : nat) (d : pydict) (w : world) :
  heap_lookup loc (w_heap w) = Some d ->
  w_heap (snd (submit_mult_calcs Calc_construct pformat cpu_count pool_order
                 calc_suite_specs (Some loc) w)) =
    heap_store loc (dict_delete "prompt_verify" d) (w_heap w).
Proof.
  intro Hd. unfold submit_mult_calcs. cbn [mbind mret].
  unfold mbind at 1, heap_read at 1. rewrite Hd. cbn [of_option].
  rewrite <- (dict_pop_default_delete "prompt_verify" (PBool false) d).
  destruct (dict_pop_default "prompt_verify" (PBool false) d) as [pv opts'].
  unfold mbind at 1, heap_write at 1.
  match goal with
  | |- w_heap (snd (?m ?w1)) = _ =>
      assert (Hpres : preserves_heap m) by (unfold create_calcs; frame_heap);
      rewrite (Hpres w1)
  end.
  reflexivity.
Qed.

(** C10: a caller's [exec_options] dict is mutated in place: whatever the
    call's outcome, afterwards the dict is the caller's dict with the key
    'prompt_verify' removed, every other key and its value kept, and no
    other dict object is touched. *)
Theorem submit_mult_calcs_pops_prompt_verify (calc_suite_specs : pydict) (loc : nat)
    (d : pydict) (w : world) :
  heap_lookup loc (w_heap w) = Some d ->
  NoDup (map fst d) ->
  let w' := snd (submit_mult_calcs Calc_construct pformat cpu_count pool_order
                   calc_suite_specs (Some loc) w) in
  (exists d', heap_lookup loc (w_heap w') = Some d' /\
              d' = dict_delete "prompt_verify" d /\
              dict_get "prompt_verify" d' = None /\
              (forall k, k <> "prompt_verify"%string -> dict_get k d' = dict_get k d)) /\
  (forall l, l <> loc -> heap_lookup l (w_heap w') = heap_lookup l (w_heap w)).
Proof.
  intros Hd Hnd w'. unfold w'. rewrite (submit_heap _ _ _ _ Hd). split.
  - exists (dict_delete "prompt_verify" d).
    rewrite heap_lookup_store, Nat.eqb_refl. split; [reflexivity|]. split; [reflexivity|].
    split; [now apply dict_get_delete_same|].
    intros k Hk. now apply dict_get_delete_other.
  - intros l Hl. rewrite heap_lookup_store.
    apply Nat.eqb_neq in Hl. now rewrite Hl.
Qed.

(** C5, refuted by the code: an empty answer to the prompt makes
    [answer.lower()[0]] raise [IndexError], not the cancellation
    [AospyException] that the docstring of [submit_mult_calcs] promises for
    any non-affirmative answer; no unit is constructed. *)
Theorem submit_empty_answer_index_error (calc_suite_specs : pydict) :
  let w := mkWorld [EmptyString] [] [] [] [(0, [("prompt_verify", PBool true)])]%string in
  fst (submit_mult_calcs Calc_construct pformat cpu_count pool_order
         calc_suite_specs (Some 0) w) = Err IndexError /\
  w_events (snd (submit_mult_calcs Calc_construct pformat cpu_count pool_order
                   calc_suite_specs (Some 0) w)) = [].
Proof. split; reflexivity. Qed.

(** A non-empty answer that does not start with 'y' or 'Y' raises
    [AospyException] before any unit is constructed or executed. *)
Lemma submit_declined_cancels (calc_suite_specs : pydict) (loc : nat) (d : pydict)
    (w : world) (v : pyval) (answer : string) (rest : list string) (c : ascii) (tail : string) :
  heap_lookup loc (w_heap w) = Some d ->
  dict_get "prompt_verify" d = Some v ->
  truthy v = true ->
  w_stdin w = answer :: rest ->
  py_lower answer = String c tail ->
  Ascii.eqb c "y"%char = false ->
  fst (submit_mult_calcs Calc_construct pformat cpu_count pool_order
         calc_suite_specs (Some loc) w) = Err AospyException /\
  w_events (snd (submit_mult_calcs Calc_construct pformat cpu_count pool_order
                   calc_suite_specs (Some loc) w)) = w_events w.
Proof.
  intros Hd Hv Ht Hin Hl Hc.
  assert (H : exists w1,
    submit_mult_calcs Calc_construct pformat cpu_count pool_order
      calc_suite_specs (Some loc) w = (Err AospyException, w1) /\
    w_events w1 = w_events w).
  { unfold submit_mult_calcs, _user_verify, py_input, py_print, mbind, mret,
      heap_read, heap_write, write_stdout, raise.
    rewrite Hd. simpl. unfold dict_pop_default. rewrite Hv. rewrite Ht.
    simpl. rewrite Hin. simpl. rewrite Hl, Hc.
    eexists. split; reflexivity. }
  destruct H as [w1 [-> He]]. split; [reflexivity | exact He].
Qed.

End SubmitFacts.

Definition construct_ok (sp : pydict) : res calc := Ok calc_ok.
Definition pformat_empty (specs : pydict) : string := EmptyString.
Definition caller_opts : pydict :=
  [("parallelize", PBool false); ("prompt_verify", PBool false); ("verbose", PBool true)]%string.
Definition world_opts := mkWorld [] [] [] [] [(7, caller_opts); (8, [])].

Lemma submit_mult_calcs_pops_prompt_verify_witness :
  let w' := snd (submit_mult_calcs construct_ok pformat_empty 1 rev_order
                   [] (Some 7) world_opts) in
  (exists d', heap_lookup 7 (w_heap w') = Some d' /\
              d' = dict_delete "prompt_verify" caller_opts /\
              dict_get "prompt_verify" d' = None /\
              (forall k, k <> "prompt_verify"%string -> dict_get k d' = dict_get k caller_opts)) /\
  (forall l, l <> 7 -> heap_lookup l (w_heap w') = heap_lookup l (w_heap world_opts)).
Proof.
  apply (submit_mult_calcs_pops_prompt_verify construct_ok pformat_empty 1 rev_order
           [] 7 caller_opts world_opts).
  - reflexivity.
  - repeat constructor; simpl; intuition discriminate.
Defined.

(** ** The suite expansion *)

(** *** More dict facts *)
Section DictKeys.
Context {A : Type}.
Implicit Types (d x y : list (string * A)) (k s : string).

Lemma dict_get_in k d : In k (map fst d) <-> exists v, dict_get k d = Some v.
Proof.
  split.
  - intro H. destruct (dict_get k d) eqn:E; [eauto|].
    apply dict_get_none in E. contradiction.
  - intros [v Hv]. destruct (in_dec string_dec k (map fst d)) as [Hi|Hn]; [exact Hi|].
    apply dict_get_none in Hn. congruence.
Qed.

Lemma keys_delete_in k s d :
  NoDup (map fst d) ->
  In k (map fst (dict_delete s d)) <-> In k (map fst d) /\ k <> s.
Proof.
  induction d as [|[k0 v0] d IH]; intro Hnd; simpl; [tauto|].
  inversion Hnd as [|? ? Hn Hnd']; subst.
  destruct (String.eqb s k0) eqn:E.
  - apply String.eqb_eq in E. subst k0. split.
    + intro Hk. split; [now right|]. intro; subst; contradiction.
    + intros [[Heq | Hk] Hne]; [subst; contradiction | exact Hk].
  - apply String.eqb_neq in E. simpl. rewrite (IH Hnd'). split.
    + intros [Heq | [Hk Hne]]; [subst; split; [now left | congruence] | tauto].
    + intros [[Heq | Hk] Hne]; [now left | tauto].
Qed.

Lemma nodup_delete s d : NoDup (map fst d) -> NoDup (map fst (dict_delete s d)).
Proof.
  induction d as [|[k0 v0] d IH]; intro Hnd; simpl; [constructor|].
  inversion Hnd as [|? ? Hn Hnd']; subst.
  destruct (String.eqb s k0); [exact Hnd'|].
  simpl. constructor; [|now apply IH].
  rewrite keys_delete_in by exact Hnd'. tauto.
Qed.

Lemma delete_app_left s x y :
  In s (map fst x) -> dict_delete s (x ++ y) = dict_delete s x ++ y.
Proof.
  induction x as [|[k0 v0] x IH]; simpl; [tauto|].
  intro H. destruct (String.eqb s k0) eqn:E; [reflexivity|].
  apply String.eqb_neq in E. simpl. f_equal. apply IH.
  destruct H; [congruence | exact H].
Qed.

Lemma dict_get_app k x y :
  dict_get k (x ++ y) = match dict_get k x with Some v => Some v | None => dict_get k y end.
Proof.
  induction x as [|[k0 v0] x IH]; simpl; [reflexivity|].
  destruct (String.eqb k k0); [reflexivity | exact IH].
Qed.

Lemma dict_set_absent k (v : A) d :
  ~ In k (map fst d) -> dict_set k v d = d ++ [(k, v)].
Proof.
  induction d as [|[k0 v0] d IH]; simpl; [reflexivity|].
  intro H. destruct (String.eqb k k0) eqn:E.
  - apply String.eqb_eq in E. subst. tauto.
  - f_equal. apply IH. tauto.
Qed.

Lemma dict_get_set j k (v : A) d :
  dict_get j (dict_set k v d) = if String.eqb j k then Some v else dict_get j d.
Proof.
  induction d as [|[k0 v0] d IH]; simpl.
  - reflexivity.
  - destruct (String.eqb k k0) eqn:E; simpl.
    + apply String.eqb_eq in E. subst k0. destruct (String.eqb j k); reflexivity.
    + destruct (String.eqb j k0) eqn:E2.
      * apply String.eqb_eq in E2. subst k0.
        destruct (String.eqb j k) eqn:E3; [|reflexivity].
        apply String.eqb_eq in E3. subst. rewrite String.eqb_refl in E. discriminate.
      * exact IH.
Qed.

Lemma keys_set_present k (v : A) d :
  In k (map fst d) -> map fst (dict_set k v d) = map fst d.
Proof.
  induction d as [|[k0 v0] d IH]; simpl; [tauto|].
  intro H. destruct (String.eqb k k0) eqn:E; simpl.
  - apply String.eqb_eq in E. now subst.
  - apply String.eqb_neq in E. f_equal. apply IH. destruct H; [congruence | exact H].
Qed.

Definition delete_all (ks : list string) d := fold_left (fun acc s => dict_delete s acc) ks d.

Lemma keys_delete_all (ks : list string) d :
  NoDup (map fst d) ->
  NoDup (map fst (delete_all ks d)) /\
  (forall k, In k (map fst (delete_all ks d)) <-> In k (map fst d) /\ ~ In k ks).
Proof.
  revert d. induction ks as [|s ks IH]; intros d Hnd; simpl.
  - split; [exact Hnd | tauto].
  - destruct (IH (dict_delete s d) (nodup_delete s d Hnd)) as [H1 H2].
    split; [exact H1|]. intro k. rewrite H2, keys_delete_in by exact Hnd. intuition.
Qed.

Lemma dict_get_delete_all j (ks : list string) d :
  NoDup (map fst d) ->
  dict_get j (delete_all ks d) = if in_dec string_dec j ks then None else dict_get j d.
Proof.
  revert d. induction ks as [|s ks IH]; intros d Hnd; simpl; [reflexivity|].
  rewrite (IH _ (nodup_delete s d Hnd)).
  destruct (string_dec s j) as [Heq | Hne].
  - subst. destruct (in_dec string_dec j ks); [reflexivity|].
    now apply dict_get_delete_same.
  - destruct (in_dec string_dec j ks); [reflexivity|].
    apply dict_get_delete_other. congruence.
Qed.

Lemma pop_keys_ok (ks : list string) d :
  NoDup (map fst d) -> NoDup ks -> (forall k, In k ks -> In k (map fst d)) ->
  pop_keys ks d = Ok (delete_all ks d).
Proof.
  revert d. induction ks as [|s ks IH]; intros d Hnd Hks Hin; [reflexivity|].
  inversion Hks as [|? ? Hs Hks']; subst. simpl.
  unfold dict_pop. destruct (proj1 (dict_get_in s d) (Hin s (or_introl eq_refl))) as [v Hv].
  rewrite Hv. simpl. apply IH.
  - now apply nodup_delete.
  - exact Hks'.
  - intros k Hk. rewrite keys_delete_in by exact Hnd. split; [apply Hin; now right|].
    intro; subst; contradiction.
Qed.

Lemma delete_all_nil (ks : list string) d :
  NoDup (map fst d) -> (forall k, In k (map fst d) -> In k ks) -> delete_all ks d = [].
Proof.
  intros Hnd Hsub. destruct (keys_delete_all ks d Hnd) as [_ H].
  destruct (delete_all ks d) as [|[k v] r] eqn:E; [reflexivity|].
  exfalso. destruct (proj1 (H k) (or_introl eq_refl)) as [Hk Hn]. eauto.
Qed.

(** [dict(pairs)] with distinct keys keeps the pairs as they are. *)
Lemma dict_update_fresh d (src : list (string * A)) :
  NoDup (map fst (d ++ src)) -> dict_update d src = d ++ src.
Proof.
  revert d. induction src as [|[k v] src IH]; intros d Hnd; simpl.
  - now rewrite app_nil_r.
  - rewrite dict_set_absent.
    + rewrite IH; [now rewrite <- app_assoc|]. now rewrite <- app_assoc.
    + rewrite map_app in Hnd. simpl in Hnd. apply NoDup_remove_2 in Hnd.
      rewrite in_app_iff in Hnd. tauto.
Qed.

End DictKeys.

(** *** The renaming loop of [_permute_aux_specs] *)

(** The values a renaming mapping reads, paired with the calc names. *)
Fixpoint renamed (pm : list (string * string)) (d : pydict) : res pydict :=
  match pm with
  | [] => Ok []
  | (s, c) :: pm' =>
      let? v := dict_getitem s d in
      let? rest := renamed pm' d in
      Ok ((c, v) :: rest)
  end.

Definition some_mapping (pm : list (string * string)) : list (string * option string) :=
  map (fun p => (fst p, Some (snd p))) pm.

Lemma renamed_delete pm s d :
  ~ In s (map fst pm) -> renamed pm (dict_delete s d) = renamed pm d.
Proof.
  induction pm as [|[s0 c0] pm IH]; intro Hn; simpl; [reflexivity|].
  simpl in Hn. unfold dict_getitem.
  rewrite dict_get_delete_other by tauto. rewrite IH by tauto. reflexivity.
Qed.

Lemma renamed_ok pm d :
  (forall s, In s (map fst pm) -> In s (map fst d)) ->
  exists r, renamed pm d = Ok r /\ map fst r = map snd pm.
Proof.
  induction pm as [|[s c] pm IH]; intro Hin; simpl; [eauto|].
  destruct (proj1 (dict_get_in s d) (Hin s (or_introl eq_refl))) as [v Hv].
  destruct IH as (r & Hr & Hk); [intros; apply Hin; now right|].
  unfold dict_getitem. rewrite Hv. simpl. rewrite Hr. simpl.
  exists ((c, v) :: r). simpl. split; [reflexivity | now f_equal].
Qed.

Lemma rename_specs_app pm x y :
  NoDup (map fst pm) -> NoDup (map snd pm) ->
  (forall c, In c (map snd pm) ->
     ~ In c (map fst pm) /\ ~ In c (map fst x) /\ ~ In c (map fst y)) ->
  (forall s, In s (map fst pm) -> In s (map fst x) /\ ~ In s (map fst y)) ->
  NoDup (map fst x) ->
  exists r, renamed pm x = Ok r /\
    rename_specs (some_mapping pm) (x ++ y) = Ok (delete_all (map fst pm) x ++ y ++ r).
Proof.
  revert x y. induction pm as [|[s c] pm IH]; intros x y Hs Hc Hcal Hsu Hx.
  - exists []. simpl. now rewrite app_nil_r.
  - simpl in Hs, Hc. inversion Hs as [|? ? Hs1 Hs2]; subst.
    inversion Hc as [|? ? Hc1 Hc2]; subst.
    destruct (Hsu s (or_introl eq_refl)) as [Hsx Hsy].
    destruct (proj1 (dict_get_in s x) Hsx) as [v Hv].
    destruct (Hcal c (or_introl eq_refl)) as (Hcs & Hcx & Hcy).
    assert (Hkx' : forall k, In k (map fst (dict_delete s x)) <-> In k (map fst x) /\ k <> s)
      by (intro; now apply keys_delete_in).
    destruct (IH (dict_delete s x) (y ++ [(c, v)]) Hs2 Hc2) as (r & Hr & Heq).
    + intros c' Hc'. destruct (Hcal c' (or_intror Hc')) as (H1 & H2 & H3).
      simpl in H1. repeat split; [tauto | rewrite Hkx'; tauto |].
      rewrite map_app, in_app_iff. simpl. intros [H | [H | []]]; [tauto|].
      subst. contradiction.
    + intros s' Hs'. destruct (Hsu s' (or_intror Hs')) as [H1 H2]. split.
      * rewrite Hkx'. split; [exact H1|]. intro; subst; contradiction.
      * rewrite map_app, in_app_iff. simpl. intros [H | [H | []]]; [tauto|].
        subst. apply Hcs. now right.
    + now apply nodup_delete.
    + exists ((c, v) :: r). split.
      * simpl. unfold dict_getitem. rewrite Hv. simpl.
        rewrite <- (renamed_delete pm s x Hs1), Hr. reflexivity.
      * simpl. unfold dict_pop. rewrite dict_get_app, Hv. simpl.
        rewrite delete_app_left by exact Hsx.
        rewrite dict_set_absent.
        -- rewrite <- app_assoc. rewrite Heq. now rewrite <- app_assoc.
        -- rewrite map_app, in_app_iff, Hkx'. tauto.
Qed.

(** *** The auxiliary pipeline *)

(** The renaming pairs left in [calc_aux_mapping] once the library and
    core names are popped. *)
Definition aux_pairs : list (string * string) :=
  [("variables", "var"); ("regions", "region"); ("date_ranges", "date_range");
   ("input_time_intervals", "intvl_in"); ("input_time_datatypes", "dtype_in_time");
   ("input_time_offsets", "time_offset"); ("input_vertical_datatypes", "dtype_in_vert");
   ("output_time_intervals", "intvl_out");
   ("output_time_regional_reductions", "dtype_out_time");
   ("output_vertical_reductions", "dtype_out_vert")]%string.

Definition aux_calc_names : list string := map snd aux_pairs.

(** The keys of one resolved parameter mapping. *)
Definition calc_param_names : list string :=
  ["proj"; "model"; "run"]%string ++ aux_calc_names.

Definition spec_names : list string := _CORE_SPEC_NAMES ++ _AUX_SPEC_NAMES.

Ltac nodup_lit :=
  repeat constructor;
  let H := fresh in intro H; simpl in H;
  repeat destruct H as [H | H]; try discriminate; try contradiction.

Lemma calc_aux_mapping_eq :
  pop_keys _CORE_SPEC_NAMES (dict_set _OBJ_LIB_STR None _NAMES_SUITE_TO_CALC)
  = Ok (some_mapping aux_pairs).
Proof. reflexivity. Qed.

Lemma aux_names_pairs : map fst aux_pairs = _AUX_SPEC_NAMES.
Proof. reflexivity. Qed.

Lemma core_aux_disjoint k : In k _AUX_SPEC_NAMES -> ~ In k _CORE_SPEC_NAMES.
Proof.
  intros H1 H2. simpl in H1, H2.
  repeat destruct H1 as [H1 | H1]; subst; try contradiction;
  repeat destruct H2 as [H2 | H2]; try discriminate; contradiction.
Qed.

Lemma calc_not_aux k : In k calc_param_names -> ~ In k _AUX_SPEC_NAMES.
Proof.
  intros H1 H2. simpl in H1, H2.
  repeat destruct H1 as [H1 | H1]; subst; try contradiction;
  repeat destruct H2 as [H2 | H2]; try discriminate; contradiction.
Qed.

Lemma calc_param_names_nodup : NoDup calc_param_names.
Proof. unfold calc_param_names, aux_calc_names. simpl. nodup_lit. Qed.

Section AuxPipeline.
Variable self : CalcSuite.
Hypothesis Hnd : NoDup (map fst self.(_specs_in)).
Hypothesis Hkeys : forall k, In k (map fst self.(_specs_in)) <-> In k spec_names.

Lemma core_popped :
  pop_keys _CORE_SPEC_NAMES self.(_specs_in) = Ok (delete_all _CORE_SPEC_NAMES self.(_specs_in)).
Proof.
  apply pop_keys_ok; [exact Hnd | simpl; nodup_lit |].
  intros k Hk. apply Hkeys. unfold spec_names. apply in_app_iff. now left.
Qed.

Lemma keys_popped k :
  In k (map fst (delete_all _CORE_SPEC_NAMES self.(_specs_in))) <-> In k _AUX_SPEC_NAMES.
Proof.
  destruct (keys_delete_all _CORE_SPEC_NAMES _ Hnd) as [_ H]. rewrite H, Hkeys.
  unfold spec_names. rewrite in_app_iff. split.
  - intros [[H1 | H1] H2]; tauto.
  - intro H1. split; [now right | now apply core_aux_disjoint].
Qed.

Lemma get_aux_specs_shape rg vr dr tr :
  _get_regions self = Ok rg -> _get_variables self = Ok vr ->
  _get_date_ranges self = Ok dr -> _get_time_reg_reducts self = Ok tr ->
  exists d1, _get_aux_specs self = Ok d1 /\
    NoDup (map fst d1) /\
    (forall k, In k (map fst d1) <-> In k _AUX_SPEC_NAMES) /\
    (forall j, dict_get j d1 =
       if String.eqb j "output_time_regional_reductions" then Some tr
       else if String.eqb j "date_ranges" then Some dr
       else if String.eqb j _VARIABLES_STR then Some vr
       else if String.eqb j _REGIONS_STR then Some rg
       else if in_dec string_dec j _CORE_SPEC_NAMES then None
       else dict_get j self.(_specs_in)).
Proof.
  intros Hr Hv Hd Ht. unfold _get_aux_specs. rewrite core_popped. cbn [rbind].
  rewrite Hr. cbn [rbind]. rewrite Hv. cbn [rbind]. rewrite Hd. cbn [rbind].
  rewrite Ht. cbn [rbind].
  eexists. split; [reflexivity|].
  destruct (keys_delete_all _CORE_SPEC_NAMES _ Hnd) as [Hnd1 _].
  assert (Hin : forall k, In k _AUX_SPEC_NAMES ->
            In k (map fst (delete_all _CORE_SPEC_NAMES self.(_specs_in))))
    by (intros; now apply keys_popped).
  set (X := delete_all _CORE_SPEC_NAMES self.(_specs_in)) in *.
  assert (K1 : map fst (dict_set _REGIONS_STR rg X) = map fst X)
    by (apply keys_set_present, Hin; simpl; tauto).
  assert (K2 : map fst (dict_set _VARIABLES_STR vr (dict_set _REGIONS_STR rg X)) = map fst X)
    by (rewrite keys_set_present; [exact K1 | rewrite K1; apply Hin; simpl; tauto]).
  assert (K3 : map fst (dict_set "date_ranges" dr (dict_set _VARIABLES_STR vr
                 (dict_set _REGIONS_STR rg X))) = map fst X)
    by (rewrite keys_set_present; [exact K2 | rewrite K2; apply Hin; simpl; tauto]).
  rewrite keys_set_present; [rewrite K3 | rewrite K3; apply Hin; simpl; tauto].
  split; [exact Hnd1|]. split; [exact keys_popped|].
  intro j. unfold X. rewrite !dict_get_set, dict_get_delete_all by exact Hnd. reflexivity.
Qed.

End AuxPipeline.

Section AuxExpansion.
Variable self : CalcSuite.
Hypothesis Hnd : NoDup (map fst self.(_specs_in)).
Hypothesis Hkeys : forall k, In k (map fst self.(_specs_in)) <-> In k spec_names.

(** With every resolver succeeding, [_permute_aux_specs] expands the
    renamed dict whose values are the resolved ones for variables, regions,
    date ranges and regional reductions, and the raw ones otherwise. *)
Lemma permute_aux_specs_renamed rg vr dr tr iti itd ito ivd oti ovr :
  _get_regions self = Ok rg -> _get_variables self = Ok vr ->
  _get_date_ranges self = Ok dr -> _get_time_reg_reducts self = Ok tr ->
  dict_get "input_time_intervals" self.(_specs_in) = Some iti ->
  dict_get "input_time_datatypes" self.(_specs_in) = Some itd ->
  dict_get "input_time_offsets" self.(_specs_in) = Some ito ->
  dict_get "input_vertical_datatypes" self.(_specs_in) = Some ivd ->
  dict_get "output_time_intervals" self.(_specs_in) = Some oti ->
  dict_get "output_vertical_reductions" self.(_specs_in) = Some ovr ->
  _permute_aux_specs self = _permuted_dicts_of_specs
    [("var", vr); ("region", rg); ("date_range", dr); ("intvl_in", iti);
     ("dtype_in_time", itd); ("time_offset", ito); ("dtype_in_vert", ivd);
     ("intvl_out", oti); ("dtype_out_time", tr); ("dtype_out_vert", ovr)]%string.
Proof.
  intros Hr Hv Hd Ht H1 H2 H3 H4 H5 H6.
  destruct (get_aux_specs_shape self Hnd Hkeys rg vr dr tr Hr Hv Hd Ht)
    as (d1 & Hd1 & Hnd1 & Hk1 & Hg1).
  unfold _permute_aux_specs. cbv zeta. rewrite calc_aux_mapping_eq. cbn [rbind].
  rewrite Hd1. cbn [rbind].
  assert (Hcomp : renamed aux_pairs d1 = Ok
    [("var", vr); ("region", rg); ("date_range", dr); ("intvl_in", iti);
     ("dtype_in_time", itd); ("time_offset", ito); ("dtype_in_vert", ivd);
     ("intvl_out", oti); ("dtype_out_time", tr); ("dtype_out_vert", ovr)]%string).
  { cbn [renamed aux_pairs]. unfold dict_getitem. rewrite !Hg1. cbn.
    rewrite H1, H2, H3, H4, H5, H6. reflexivity. }
  destruct (rename_specs_app aux_pairs d1 []) as (r & Hr' & Heq).
  - simpl. nodup_lit.
  - simpl. nodup_lit.
  - intros c Hc. rewrite aux_names_pairs, Hk1. cbn [map].
    assert (Hcp : In c calc_param_names)
      by (unfold calc_param_names; apply in_app_iff; now right).
    pose proof (calc_not_aux c Hcp). tauto.
  - intros s Hs. rewrite aux_names_pairs in Hs. rewrite Hk1. simpl. tauto.
  - exact Hnd1.
  - rewrite app_nil_r in Heq. rewrite Heq.
    rewrite (delete_all_nil (map fst aux_pairs) d1 Hnd1)
      by (intros k Hk; rewrite aux_names_pairs; now apply Hk1).
    rewrite Hcomp in Hr'. injection Hr' as <-. reflexivity.
Qed.

End AuxExpansion.

(** *** Products and the shape of the expansion *)

Lemma length_flat_map_cons (xs : list pyval) (P : list (list pyval)) :
  length (flat_map (fun x => map (cons x) P) xs) = length xs * length P.
Proof.
  induction xs as [|x xs IH]; simpl; [reflexivity|].
  rewrite length_app, length_map, IH. reflexivity.
Qed.

Lemma length_product axes :
  length (product axes) = fold_right (fun xs n => length xs * n) 1 axes.
Proof.
  induction axes as [|xs axes IH]; simpl; [reflexivity|].
  rewrite length_flat_map_cons, IH. reflexivity.
Qed.

Lemma product_lengths axes :
  Forall (fun perm => length perm = length axes) (product axes).
Proof.
  induction axes as [|xs axes IH]; simpl; [now repeat constructor|].
  apply Forall_forall. intros perm Hp.
  apply in_flat_map in Hp as (x & _ & Hp). apply in_map_iff in Hp as (p & <- & Hp).
  simpl. f_equal. rewrite Forall_forall in IH. now apply IH.
Qed.

Lemma map_fst_combine {A B} (l1 : list A) (l2 : list B) :
  length l1 = length l2 -> map fst (combine l1 l2) = l1.
Proof.
  revert l2. induction l1 as [|a l1 IH]; intros [|b l2] H; simpl in *;
    try discriminate; [reflexivity|]. f_equal. apply IH. lia.
Qed.

Lemma dict_from_pairs_nodup {A} (ps : list (string * A)) :
  NoDup (map fst ps) -> dict_from_pairs ps = ps.
Proof. intro H. apply dict_update_fresh. exact H. Qed.

Lemma mapR_length {A B} (f : A -> res B) xs ys : mapR f xs = Ok ys -> length ys = length xs.
Proof.
  revert ys. induction xs as [|x xs IH]; simpl; intros ys H.
  - now injection H as <-.
  - destruct (f x); [|discriminate]. simpl in H.
    destruct (mapR f xs) eqn:E; [|discriminate]. simpl in H. injection H as <-.
    simpl. f_equal. now apply IH.
Qed.

Lemma permuted_dicts_shape (specs : pydict) axes :
  NoDup (map fst specs) ->
  mapR (fun kv => iter_py (snd kv)) specs = Ok axes ->
  exists out, _permuted_dicts_of_specs specs = Ok out /\
    length out = fold_right (fun xs n => length xs * n) 1 axes /\
    Forall (fun d => map fst d = map fst specs) out.
Proof.
  intros Hnd Hax. unfold _permuted_dicts_of_specs. rewrite Hax. cbn [rbind].
  eexists. split; [reflexivity|]. split.
  - rewrite length_map. apply length_product.
  - apply Forall_map. pose proof (product_lengths axes) as Hl.
    apply (mapR_length _ _ _) in Hax.
    eapply Forall_impl; [|exact Hl]. intros perm Hp. simpl.
    cbv beta in Hp.
    assert (Hlen : length (map fst specs) = length perm) by (rewrite length_map; lia).
    rewrite dict_from_pairs_nodup; rewrite (map_fst_combine _ _ Hlen);
      [reflexivity | exact Hnd].
Qed.

Lemma concat_mapR_const {A B} (f : A -> res (list B)) (g : A -> list B) xs :
  (forall x, In x xs -> f x = Ok (g x)) -> concat_mapR f xs = Ok (concat (map g xs)).
Proof.
  unfold concat_mapR. intro H. induction xs as [|x xs IH]; simpl; [reflexivity|].
  rewrite (H x (or_introl eq_refl)). simpl.
  destruct (mapR f xs) as [yss|e] eqn:E; simpl in *.
  - specialize (IH (fun y Hy => H y (or_intror Hy))). injection IH as <-. reflexivity.
  - discriminate (IH (fun y Hy => H y (or_intror Hy))).
Qed.

Lemma length_concat_const {A B} (g : A -> list B) xs n :
  (forall x, In x xs -> length (g x) = n) -> length (concat (map g xs)) = length xs * n.
Proof.
  intro H. induction xs as [|x xs IH]; simpl; [reflexivity|].
  rewrite length_app, (H x (or_introl eq_refl)), IH by (intros; apply H; now right).
  reflexivity.
Qed.

Lemma concat_mapR_forall {A B} (P : B -> Prop) (f : A -> res (list B)) xs ys :
  concat_mapR f xs = Ok ys -> (forall x ys', f x = Ok ys' -> Forall P ys') -> Forall P ys.
Proof.
  unfold concat_mapR. intros H Hf. revert ys H.
  induction xs as [|x xs IH]; simpl; intros ys H.
  - injection H as <-. constructor.
  - destruct (f x) as [y|e] eqn:Ex; [|discriminate]. simpl in H.
    destruct (mapR f xs) as [yss|e] eqn:E; [|discriminate]. simpl in H.
    injection H as <-. simpl. apply Forall_app. split; [exact (Hf x y Ex)|].
    apply IH. reflexivity.
Qed.

Lemma permute_core_specs_keys self cores :
  _permute_core_specs self = Ok cores ->
  Forall (fun d => map fst d = ["proj"; "model"; "run"]%string) cores.
Proof.
  unfold _permute_core_specs. intro H.
  destruct (_get_requested_spec self (_obj_lib self) _PROJECTS_STR) as [p|e];
    [|discriminate]. simpl in H.
  destruct (iter_py p) as [ps|e]; [|discriminate]. simpl in H.
  apply (concat_mapR_forall _ _ _ _ H). intros pr ys Hy.
  destruct (_get_requested_spec self pr _MODELS_STR) as [m|e]; [|discriminate].
  simpl in Hy. destruct (iter_py m) as [ms|e]; [|discriminate]. simpl in Hy.
  apply (concat_mapR_forall _ _ _ _ Hy). intros md zs Hz.
  destruct (_get_requested_spec self md _RUNS_STR) as [r|e]; [|discriminate].
  simpl in Hz. destruct (iter_py r) as [rs|e]; [|discriminate]. simpl in Hz.
  injection Hz as <-. apply Forall_map, Forall_forall. intros; reflexivity.
Qed.

Lemma merge_core_aux (core aux : pydict) :
  map fst core = ["proj"; "model"; "run"]%string -> map fst aux = aux_calc_names ->
  _merge_dicts [core; aux] = core ++ aux.
Proof.
  intros Hc Ha. pose proof calc_param_names_nodup as Hn.
  unfold _merge_dicts. simpl. rewrite (dict_update_fresh [] core) by (simpl; rewrite Hc; nodup_lit).
  apply dict_update_fresh. rewrite map_app, Hc, Ha. exact Hn.
Qed.

Lemma get_regions_wrapped self rg : _get_regions self = Ok rg -> exists s, rg = PList [s].
Proof.
  unfold _get_regions. destruct (dict_getitem _REGIONS_STR (_specs_in self)) as [q|e];
    [|discriminate]. simpl.
  destruct (py_eq_str q "all").
  - destruct (_get_all_objs_of_type _ _) as [s|e]; [|discriminate]. simpl.
    injection 1 as <-. eauto.
  - destruct (py_set_of q) as [s|e]; [|discriminate]. simpl. injection 1 as <-. eauto.
Qed.

Lemma get_time_reg_reducts_value self v :
  dict_get "output_time_regional_reductions" self.(_specs_in) = Some v ->
  _get_time_reg_reducts self = Ok (PList [v]).
Proof. intro H. unfold _get_time_reg_reducts, dict_getitem. now rewrite H. Qed.

Lemma product_in axes perm :
  In perm (product axes) -> Forall2 (fun x xs => In x xs) perm axes.
Proof.
  revert perm. induction axes as [|xs axes IH]; simpl; intros perm H.
  - destruct H as [<- | []]. constructor.
  - apply in_flat_map in H as (x & Hx & H). apply in_map_iff in H as (p & <- & Hp).
    constructor; [exact Hx | now apply IH].
Qed.

Lemma permuted_dicts_in (specs : pydict) axes out :
  mapR (fun kv => iter_py (snd kv)) specs = Ok axes ->
  _permuted_dicts_of_specs specs = Ok out ->
  forall d, In d out -> exists perm, Forall2 (fun x xs => In x xs) perm axes /\
    d = dict_from_pairs (combine (map fst specs) perm).
Proof.
  unfold _permuted_dicts_of_specs. intros Hax H. rewrite Hax in H. cbn [rbind] in H.
  injection H as <-. intros d Hd. apply in_map_iff in Hd as (perm & <- & Hp).
  exists perm. split; [now apply product_in | reflexivity].
Qed.

Lemma combine_core_aux_specs_shape (self : CalcSuite) (cores : list pydict)
    (rg vr dr iti itd ito ivd oti ovr : pyval)
    (vs ds xi xd xo xv xt xr : list pyval) :
  NoDup (map fst self.(_specs_in)) ->
  (forall k, In k (map fst self.(_specs_in)) <-> In k spec_names) ->
  _permute_core_specs self = Ok cores ->
  _get_regions self = Ok rg ->
  _get_variables self = Ok vr -> iter_py vr = Ok vs ->
  _get_date_ranges self = Ok dr -> iter_py dr = Ok ds ->
  dict_get "input_time_intervals" self.(_specs_in) = Some iti -> iter_py iti = Ok xi ->
  dict_get "input_time_datatypes" self.(_specs_in) = Some itd -> iter_py itd = Ok xd ->
  dict_get "input_time_offsets" self.(_specs_in) = Some ito -> iter_py ito = Ok xo ->
  dict_get "input_vertical_datatypes" self.(_specs_in) = Some ivd -> iter_py ivd = Ok xv ->
  dict_get "output_time_intervals" self.(_specs_in) = Some oti -> iter_py oti = Ok xt ->
  dict_get "output_vertical_reductions" self.(_specs_in) = Some ovr -> iter_py ovr = Ok xr ->
  exists out, _combine_core_aux_specs self = Ok out /\
    length out = length cores * (length vs * 1 * length ds * length xi * length xd
                   * length xo * length xv * length xt * 1 * length xr) /\
    Forall (fun d => map fst d = calc_param_names /\ NoDup (map fst d) /\
      dict_get "dtype_out_time" d =
        dict_get "output_time_regional_reductions" self.(_specs_in)) out.
Proof.
  intros Hnd Hkeys Hcores Hr Hv Hvs Hd Hds H1 Hx1 H2 Hx2 H3 Hx3 H4 Hx4 H5 Hx5 H6 Hx6.
  destruct (get_regions_wrapped self rg Hr) as [s ->].
  assert (Hin : In "output_time_regional_reductions"%string (map fst self.(_specs_in)))
    by (apply Hkeys; simpl; tauto).
  destruct (proj1 (dict_get_in _ _) Hin) as [v Hvv].
  pose proof (get_time_reg_reducts_value self v Hvv) as Ht.
  pose proof (permute_aux_specs_renamed self Hnd Hkeys _ _ _ _ _ _ _ _ _ _
                Hr Hv Hd Ht H1 H2 H3 H4 H5 H6) as Hpa.
  destruct (permuted_dicts_shape
    [("var", vr); ("region", PList [s]); ("date_range", dr); ("intvl_in", iti);
     ("dtype_in_time", itd); ("time_offset", ito); ("dtype_in_vert", ivd);
     ("intvl_out", oti); ("dtype_out_time", PList [v]); ("dtype_out_vert", ovr)]%string
    [vs; [s]; ds; xi; xd; xo; xv; xt; [v]; xr]) as (auxs & Hauxs & Hlen & Hk).
  { simpl. nodup_lit. }
  { simpl. rewrite Hvs, Hds, Hx1, Hx2, Hx3, Hx4, Hx5, Hx6. reflexivity. }
  assert (Hax : mapR (fun kv => iter_py (snd kv))
    [("var", vr); ("region", PList [s]); ("date_range", dr); ("intvl_in", iti);
     ("dtype_in_time", itd); ("time_offset", ito); ("dtype_in_vert", ivd);
     ("intvl_out", oti); ("dtype_out_time", PList [v]); ("dtype_out_vert", ovr)]%string
    = Ok [vs; [s]; ds; xi; xd; xo; xv; xt; [v]; xr])
    by (simpl; rewrite Hvs, Hds, Hx1, Hx2, Hx3, Hx4, Hx5, Hx6; reflexivity).
  unfold _combine_core_aux_specs. rewrite Hcores. cbn [rbind].
  rewrite (concat_mapR_const _ (fun core => map (fun aux => _merge_dicts [core; aux]) auxs))
    by (intros; rewrite Hpa, Hauxs; reflexivity).
  eexists. split; [reflexivity|]. split.
  - rewrite (length_concat_const _ _ (length auxs)) by (intros; apply length_map).
    rewrite Hlen. simpl. lia.
  - pose proof (permute_core_specs_keys self cores Hcores) as Hc.
    rewrite Forall_forall in Hc, Hk |- *. intros d Hdd.
    apply in_concat in Hdd as (l & Hl & Hdd). apply in_map_iff in Hl as (core & <- & Hcore).
    apply in_map_iff in Hdd as (aux & <- & Haux).
    rewrite merge_core_aux by (apply Hc || apply Hk; assumption).
    rewrite map_app, (Hc core Hcore), (Hk aux Haux).
    split; [reflexivity | split; [exact calc_param_names_nodup|]].
    rewrite Hvv, dict_get_app.
    rewrite (proj2 (dict_get_none _ core)) by (rewrite (Hc core Hcore); simpl; intuition discriminate).
    destruct (permuted_dicts_in _ _ _ Hax Hauxs aux Haux) as (perm & Hperm & ->).
    repeat match goal with
           | H : Forall2 _ _ (_ :: _) |- _ => inversion H; subst; clear H
           | H : Forall2 _ _ [] |- _ => inversion H; subst; clear H
           end.
    match goal with H : In _ [v] |- _ => destruct H as [<- | []] end.
    reflexivity.
Qed.


(** C1 (corrected): given a suite whose keys are exactly the fourteen spec
    names, [m] core trees and resolvers that succeed, the suite expands into
    [m * n_var * 1 * n_date * n_iti * n_itd * n_ito * n_ivd * n_oti * 1 * n_ovr]
    parameter dicts, one factor per renamed field in mapping order: the
    resolved regions are a one-element list holding the whole region set, and
    the regional reductions a one-element list holding the raw value, so both
    contribute a factor 1 whatever their sizes.  Every entry has the keys
    proj, model, run and the ten renamed auxiliary names, each exactly once. *)
Theorem combine_core_aux_specs_count (self : CalcSuite) (cores : list pydict)
    (rg vr dr iti itd ito ivd oti ovr : pyval)
    (vs ds xi xd xo xv xt xr : list pyval) :
  NoDup (map fst self.(_specs_in)) ->
  (forall k, In k (map fst self.(_specs_in)) <-> In k spec_names) ->
  _permute_core_specs self = Ok cores ->
  _get_regions self = Ok rg ->
  _get_variables self = Ok vr -> iter_py vr = Ok vs ->
  _get_date_ranges self = Ok dr -> iter_py dr = Ok ds ->
  dict_get "input_time_intervals" self.(_specs_in) = Some iti -> iter_py iti = Ok xi ->
  dict_get "input_time_datatypes" self.(_specs_in) = Some itd -> iter_py itd = Ok xd ->
  dict_get "input_time_offsets" self.(_specs_in) = Some ito -> iter_py ito = Ok xo ->
  dict_get "input_vertical_datatypes" self.(_specs_in) = Some ivd -> iter_py ivd = Ok xv ->
  dict_get "output_time_intervals" self.(_specs_in) = Some oti -> iter_py oti = Ok xt ->
  dict_get "output_vertical_reductions" self.(_specs_in) = Some ovr -> iter_py ovr = Ok xr ->
  exists out, _combine_core_aux_specs self = Ok out /\
    length out = length cores * (length vs * 1 * length ds * length xi * length xd
                   * length xo * length xv * length xt * 1 * length xr) /\
    Forall (fun d => map fst d = calc_param_names /\ NoDup (map fst d)) out.
Proof.
  intros Hnd Hkeys Hcores Hr Hv Hvs Hd Hds H1 Hx1 H2 Hx2 H3 Hx3 H4 Hx4 H5 Hx5 H6 Hx6.
  destruct (combine_core_aux_specs_shape self cores rg vr dr iti itd ito ivd oti ovr
              vs ds xi xd xo xv xt xr Hnd Hkeys Hcores Hr Hv Hvs Hd Hds
              H1 Hx1 H2 Hx2 H3 Hx3 H4 Hx4 H5 Hx5 H6 Hx6) as (out & Ho & Hl & Hf).
  exists out. split; [exact Ho|]. split; [exact Hl|].
  eapply Forall_impl; [|exact Hf]. simpl. tauto.
Qed.

(** A full suite over the three core trees of [ex_lib]: two variables, two
    regions, two regional reductions, one value for every other field. *)
Definition ex_full_specs : pydict :=
  [(_OBJ_LIB_STR, ex_lib); (_PROJECTS_STR, PList [ex_A]);
   (_MODELS_STR, PStr "all"); (_RUNS_STR, PStr "all");
   (_VARIABLES_STR, PList [PStr "t"; PStr "p"]);
   (_REGIONS_STR, PList [PStr "nh"; PStr "sh"]);
   ("date_ranges", PStr "default");
   ("input_time_intervals", PList [PStr "monthly"]);
   ("input_time_datatypes", PList [PStr "ts"]);
   ("input_time_offsets", PList [PNone]);
   ("input_vertical_datatypes", PList [PBool false]);
   ("output_time_intervals", PList [PStr "ann"]);
   ("output_time_regional_reductions", PList [PStr "av"; PStr "std"]);
   ("output_vertical_reductions", PList [PNone])]%string.

Definition ex_full_suite := mkCalcSuite ex_full_specs ex_lib.

Lemma combine_core_aux_specs_count_witness :
  exists out, _combine_core_aux_specs ex_full_suite = Ok out /\
    length out = 3 * (2 * 1 * 1 * 1 * 1 * 1 * 1 * 1 * 1 * 1) /\
    Forall (fun d => map fst d = calc_param_names /\ NoDup (map fst d)) out.
Proof.
  apply (combine_core_aux_specs_count ex_full_suite
           [core_tree ex_A ex_m1 ex_r1; core_tree ex_A ex_m2 ex_r2; core_tree ex_A ex_m2 ex_r3]
           (PList [PSet [PStr "nh"; PStr "sh"]]) (PSet [PStr "t"; PStr "p"])
           (PList [PStr "default"]) (PList [PStr "monthly"]) (PList [PStr "ts"])
           (PList [PNone]) (PList [PBool false]) (PList [PStr "ann"]) (PList [PNone])
           [PStr "t"; PStr "p"] [PStr "default"] [PStr "monthly"] [PStr "ts"]
           [PNone] [PBool false] [PStr "ann"] [PNone])%string;
    try reflexivity.
  simpl. nodup_lit.
Defined.

(** Against C1's product over the resolved sets: [ex_full_suite] resolves
    regions to a set of two regions beside two variables and three core
    trees, yet expands into 6 dicts, not 3 * 2 * 2 = 12. *)
Lemma two_regions_count_once :
  _get_regions ex_full_suite = Ok (PList [PSet [PStr "nh"; PStr "sh"]])%string /\
  _get_variables ex_full_suite = Ok (PSet [PStr "t"; PStr "p"])%string /\
  (let? out := _combine_core_aux_specs ex_full_suite in Ok (length out)) = Ok 6 /\
  6 <> 3 * 2 * 2.
Proof. vm_compute. repeat split; discriminate || reflexivity. Qed.

(** C9: the supplied value [v] of output_time_regional_reductions resolves
    to the one-element list [[v]], whose only element is [v] itself; in the
    expansion of a suite it is one axis of length 1, so the number of
    parameter dicts does not depend on [v] (however many reductions it
    lists), and every dict carries [v] whole under dtype_out_time. *)
Theorem time_reg_reducts_one_value (self : CalcSuite) (cores : list pydict)
    (v rg vr dr iti itd ito ivd oti ovr : pyval)
    (vs ds xi xd xo xv xt xr : list pyval) :
  dict_get "output_time_regional_reductions" self.(_specs_in) = Some v ->
  NoDup (map fst self.(_specs_in)) ->
  (forall k, In k (map fst self.(_specs_in)) <-> In k spec_names) ->
  _permute_core_specs self = Ok cores ->
  _get_regions self = Ok rg ->
  _get_variables self = Ok vr -> iter_py vr = Ok vs ->
  _get_date_ranges self = Ok dr -> iter_py dr = Ok ds ->
  dict_get "input_time_intervals" self.(_specs_in) = Some iti -> iter_py iti = Ok xi ->
  dict_get "input_time_datatypes" self.(_specs_in) = Some itd -> iter_py itd = Ok xd ->
  dict_get "input_time_offsets" self.(_specs_in) = Some ito -> iter_py ito = Ok xo ->
  dict_get "input_vertical_datatypes" self.(_specs_in) = Some ivd -> iter_py ivd = Ok xv ->
  dict_get "output_time_intervals" self.(_specs_in) = Some oti -> iter_py oti = Ok xt ->
  dict_get "output_vertical_reductions" self.(_specs_in) = Some ovr -> iter_py ovr = Ok xr ->
  _get_time_reg_reducts self = Ok (PList [v]) /\
  iter_py (PList [v]) = Ok [v] /\
  exists out, _combine_core_aux_specs self = Ok out /\
    length out = length cores * (length vs * 1 * length ds * length xi * length xd
                   * length xo * length xv * length xt * 1 * length xr) /\
    Forall (fun d => dict_get "dtype_out_time" d = Some v) out.
Proof.
  intros Hv0 Hnd Hkeys Hcores Hr Hv Hvs Hd Hds H1 Hx1 H2 Hx2 H3 Hx3 H4 Hx4 H5 Hx5 H6 Hx6.
  split; [now apply get_time_reg_reducts_value|]. split; [reflexivity|].
  destruct (combine_core_aux_specs_shape self cores rg vr dr iti itd ito ivd oti ovr
              vs ds xi xd xo xv xt xr Hnd Hkeys Hcores Hr Hv Hvs Hd Hds
              H1 Hx1 H2 Hx2 H3 Hx3 H4 Hx4 H5 Hx5 H6 Hx6) as (out & Ho & Hl & Hf).
  exists out. split; [exact Ho|]. split; [exact Hl|].
  eapply Forall_impl; [|exact Hf]. simpl. intros d (_ & _ & H). now rewrite H, Hv0.
Qed.

Lemma time_reg_reducts_one_value_witness :
  _get_time_reg_reducts ex_full_suite = Ok (PList [PList [PStr "av"; PStr "std"]])%string /\
  iter_py (PList [PList [PStr "av"; PStr "std"]])%string
    = Ok [PList [PStr "av"; PStr "std"]]%string /\
  exists out, _combine_core_aux_specs ex_full_suite = Ok out /\
    length out = 3 * (2 * 1 * 1 * 1 * 1 * 1 * 1 * 1 * 1 * 1) /\
    Forall (fun d => dict_get "dtype_out_time" d = Some (PList [PStr "av"; PStr "std"]))%string
      out.
Proof.
  apply (time_reg_reducts_one_value ex_full_suite
           [core_tree ex_A ex_m1 ex_r1; core_tree ex_A ex_m2 ex_r2; core_tree ex_A ex_m2 ex_r3]
           (PList [PStr "av"; PStr "std"])
           (PList [PSet [PStr "nh"; PStr "sh"]]) (PSet [PStr "t"; PStr "p"])
           (PList [PStr "default"]) (PList [PStr "monthly"]) (PList [PStr "ts"])
           (PList [PNone]) (PList [PBool false]) (PList [PStr "ann"]) (PList [PNone])
           [PStr "t"; PStr "p"] [PStr "default"] [PStr "monthly"] [PStr "ts"]
           [PNone] [PBool false] [PStr "ann"] [PNone])%string;
    try reflexivity.
  simpl. nodup_lit.
Defined.

(** *** Set semantics of [set(...)] *)

(** [s] is a set built from [xs]: its elements come from [xs], every element
    of [xs] has an equal element in [s], and no two elements of [s] are equal. *)
Definition is_set_of (s xs : list pyval) : Prop :=
  (forall y, In y s -> In y xs) /\
  (forall x, In x xs -> exists y, In y s /\ hash_key y = hash_key x) /\
  NoDup (map hash_key s).

Definition hashable (x : pyval) : Prop := exists k, hash_key x = Ok k.

(** Induction on hash keys, with a hypothesis for each element of a tuple. *)
Section HkeyInd.
Variable P : hkey -> Prop.
Hypothesis P_none : P HNone.
Hypothesis P_int : forall z, P (HInt z).
Hypothesis P_str : forall s, P (HStr s).
Hypothesis P_obj : forall n, P (HObj n).
Hypothesis P_tuple : forall ks, Forall P ks -> P (HTuple ks).

Fixpoint hkey_ind' (k : hkey) : P k :=
  match k with
  | HNone => P_none
  | HInt z => P_int z
  | HStr s => P_str s
  | HObj n => P_obj n
  | HTuple ks =>
      P_tuple ks ((fix go (l : list hkey) : Forall P l :=
                     match l with
                     | [] => Forall_nil P
                     | k' :: l' => Forall_cons k' (hkey_ind' k') (go l')
                     end) ks)
  end.
End HkeyInd.

Lemma hkey_eqb_eq a b : hkey_eqb a b = true <-> a = b.
Proof.
  revert b. induction a as [| z | s | n | ks IH] using hkey_ind'; intro b;
    destruct b as [| z' | s' | n' | ks']; simpl; split; intro H;
    try discriminate; try reflexivity; try (injection H as <-).
  - now apply Z.eqb_eq in H as ->.
  - apply Z.eqb_refl.
  - now apply String.eqb_eq in H as ->.
  - apply String.eqb_refl.
  - now apply Nat.eqb_eq in H as ->.
  - apply Nat.eqb_refl.
  - f_equal. revert ks' H. induction IH as [|k ks Hk Hks IHks]; intros [|k' ks'] H;
      try discriminate; [reflexivity|].
    apply andb_prop in H as [H1 H2]. apply Hk in H1 as ->. f_equal.
    apply (IHks ks' H2).
  - induction IH as [|k ks Hk Hks IHks]; [reflexivity|].
    apply andb_true_intro. split; [now apply Hk | exact IHks].
Qed.

Definition set_inv (acc : list (hkey * pyval)) : Prop :=
  (forall p, In p acc -> hash_key (snd p) = Ok (fst p)) /\ NoDup (map fst acc).

Lemma set_insert_spec acc xs :
  set_inv acc -> Forall hashable xs ->
  exists acc', set_insert acc xs = Ok acc' /\ set_inv acc' /\
    (forall p, In p acc -> In p acc') /\
    (forall p, In p acc' -> In p acc \/ In (snd p) xs) /\
    (forall x, In x xs -> exists p, In p acc' /\ hash_key x = Ok (fst p)).
Proof.
  revert acc. induction xs as [|x xs IH]; intros acc Hinv Hh.
  - exists acc. simpl. repeat split; try tauto; apply Hinv.
  - inversion Hh as [|? ? [k Hk] Hh']; subst. simpl. rewrite Hk. simpl.
    destruct (existsb (fun kv => hkey_eqb (fst kv) k) acc) eqn:E.
    + apply existsb_exists in E as (q & Hq & Hqk). apply hkey_eqb_eq in Hqk.
      destruct (IH acc Hinv Hh') as (acc' & H1 & H2 & H3 & H4 & H5).
      exists acc'. split; [exact H1|]. split; [exact H2|]. split; [exact H3|]. split.
      * intros p Hp. destruct (H4 p Hp); tauto.
      * intros y [<- | Hy]; [|now apply H5].
        exists q. split; [now apply H3 | now rewrite Hqk].
    + assert (Hinv2 : set_inv (acc ++ [(k, x)])).
      { destruct Hinv as [Hi Hn]. split.
        - intros p Hp. apply in_app_iff in Hp as [Hp | [<- | []]]; [now apply Hi | exact Hk].
        - rewrite map_app. simpl. apply NoDup_app; [exact Hn | now repeat constructor |].
          intros a Ha Hb. destruct Hb as [<- | []].
          apply in_map_iff in Ha as (q & Hq & Hin).
          assert (existsb (fun kv => hkey_eqb (fst kv) (fst q)) acc = true)
            by (apply existsb_exists; exists q; split; [exact Hin | apply hkey_eqb_eq; reflexivity]).
          rewrite Hq in H. congruence. }
      destruct (IH _ Hinv2 Hh') as (acc' & H1 & H2 & H3 & H4 & H5).
      exists acc'. split; [exact H1|]. split; [exact H2|]. split.
      * intros p Hp. apply H3, in_app_iff. now left.
      * split.
        -- intros p Hp. destruct (H4 p Hp) as [Hq | Hq]; [|simpl; tauto].
           apply in_app_iff in Hq as [Hq | [<- | []]]; [now left | simpl; tauto].
        -- intros y [<- | Hy]; [|now apply H5].
           exists (k, x). split; [apply H3, in_app_iff; simpl; tauto | exact Hk].
Qed.

Lemma nodup_map_ok (l : list hkey) : NoDup l -> NoDup (map (fun k => @Ok hkey k) l).
Proof.
  induction l as [|a l IH]; intro H; simpl; [constructor|].
  inversion H; subst. constructor; [|now apply IH].
  intro Hin. apply in_map_iff in Hin as (b & Hb & Hin). injection Hb as ->. contradiction.
Qed.

Lemma py_set_spec xs :
  Forall hashable xs -> exists s, py_set xs = Ok s /\ is_set_of s xs.
Proof.
  intro Hh. destruct (set_insert_spec [] xs) as (acc & H1 & [Hi Hn] & _ & H4 & H5);
    [split; [intros _ [] | constructor] | exact Hh |].
  unfold py_set. rewrite H1. simpl. eexists. split; [reflexivity|]. split; [|split].
  - intros y Hy. apply in_map_iff in Hy as (p & <- & Hp). destruct (H4 p Hp) as [[] | H]; exact H.
  - intros x Hx. destruct (H5 x Hx) as (p & Hp & Hk). exists (snd p).
    split; [now apply in_map | rewrite Hk; now apply Hi].
  - rewrite map_map.
    replace (map (fun x => hash_key (snd x)) acc) with (map (fun k => @Ok hkey k) (map fst acc)).
    + now apply nodup_map_ok.
    + rewrite map_map. apply map_ext_in. intros p Hp. symmetry. now apply Hi.
Qed.

(** Two sets built from lists with the same members have the same members
    up to equality. *)
Lemma is_set_of_same s s' xs xs' :
  is_set_of s xs -> is_set_of s' xs' -> (forall x, In x xs <-> In x xs') ->
  forall y, In y s -> exists y', In y' s' /\ hash_key y' = hash_key y.
Proof.
  intros [H1 _] [_ [H2 _]] Hm y Hy. apply H2, Hm, H1, Hy.
Qed.

Lemma region_values_hashable (attrs : list (string * pyval)) :
  Forall hashable (filter (fun obj => isinstance obj "Region") (map snd attrs)).
Proof.
  apply Forall_forall. intros x Hx. apply filter_In in Hx as [_ Hx].
  destruct x; try discriminate. eexists. reflexivity.
Qed.

(** A library whose [regions] namespace holds two regions and a variable. *)
Definition ex_nh := PObj 41 ["Region"]%string [].
Definition ex_sh := PObj 42 ["Region"]%string [].
Definition ex_tvar := PObj 43 ["Var"]%string [].
Definition ex_regions_ns :=
  PObj 40 ["module"]%string [("nh", ex_nh); ("sh", ex_sh); ("t", ex_tvar)]%string.
Definition ex_lib_regions := PObj 2 ["module"]%string [(_REGIONS_STR, ex_regions_ns)].
Definition ex_suite_all_regions :=
  mkCalcSuite [(_OBJ_LIB_STR, ex_lib_regions); (_REGIONS_STR, PStr "all")]%string
    ex_lib_regions.
Definition ex_suite_list_regions :=
  mkCalcSuite [(_OBJ_LIB_STR, ex_lib); (_REGIONS_STR, PList [PStr "sh"; PStr "nh"; PStr "sh"])]%string
    ex_lib.
Definition ex_suite_set_regions :=
  mkCalcSuite [(_OBJ_LIB_STR, ex_lib); (_REGIONS_STR, PSet [PStr "nh"; PStr "sh"])]%string
    ex_lib.

(** C6 (corrected): regions resolve to a one-element list holding a set.
    With regions "all", that set is built from the Region-typed attribute
    values of [getattr(library, 'regions', library)], which must be an
    attribute-bearing object; with an explicit iterable, from its elements,
    which must be hashable.  Two explicit iterables with the same members
    (reordered, or with duplicates) give sets with the same members. *)
Theorem get_regions_resolution (self1 self2 self3 : CalcSuite)
    (n : nat) (mro : list string) (attrs : list (string * pyval))
    (v2 v3 : pyval) (xs2 xs3 : list pyval) :
  dict_get _REGIONS_STR self1.(_specs_in) = Some (PStr "all") ->
  getattr_default self1.(_obj_lib) "regions" self1.(_obj_lib) = PObj n mro attrs ->
  dict_get _REGIONS_STR self2.(_specs_in) = Some v2 -> py_eq_str v2 "all" = false ->
  iter_py v2 = Ok xs2 -> Forall hashable xs2 ->
  dict_get _REGIONS_STR self3.(_specs_in) = Some v3 -> py_eq_str v3 "all" = false ->
  iter_py v3 = Ok xs3 -> (forall x, In x xs2 <-> In x xs3) ->
  (exists s, _get_regions self1 = Ok (PList [PSet s]) /\
     is_set_of s (filter (fun obj => isinstance obj "Region") (map snd attrs))) /\
  (exists s2 s3, _get_regions self2 = Ok (PList [PSet s2]) /\
     _get_regions self3 = Ok (PList [PSet s3]) /\
     is_set_of s2 xs2 /\ is_set_of s3 xs3 /\
     (forall y, In y s2 -> exists y', In y' s3 /\ hash_key y' = hash_key y) /\
     (forall y, In y s3 -> exists y', In y' s2 /\ hash_key y' = hash_key y)).
Proof.
  intros H1 Hns H2 Ha2 Hi2 Hh2 H3 Ha3 Hi3 Hm. split.
  - destruct (py_set_spec _ (region_values_hashable attrs)) as (s & Hs & Hset).
    exists s. split; [|exact Hset].
    unfold _get_regions, dict_getitem. rewrite H1. simpl. rewrite Hns.
    unfold _get_all_objs_of_type. simpl. rewrite Hs. reflexivity.
  - assert (Hh3 : Forall hashable xs3).
    { rewrite Forall_forall in Hh2 |- *. intros x Hx. apply Hh2, Hm, Hx. }
    destruct (py_set_spec _ Hh2) as (s2 & Hs2 & Hset2).
    destruct (py_set_spec _ Hh3) as (s3 & Hs3 & Hset3).
    exists s2, s3.
    unfold _get_regions, dict_getitem. rewrite H2, H3. simpl. rewrite Ha2, Ha3.
    unfold py_set_of. rewrite Hi2, Hi3. simpl. rewrite Hs2, Hs3. simpl.
    split; [reflexivity|]. split; [reflexivity|]. split; [exact Hset2|].
    split; [exact Hset3|]. split.
    + exact (is_set_of_same _ _ _ _ Hset2 Hset3 Hm).
    + apply (is_set_of_same _ _ _ _ Hset3 Hset2). intro x. symmetry. apply Hm.
Qed.

Lemma get_regions_resolution_witness :
  (exists s, _get_regions ex_suite_all_regions = Ok (PList [PSet s]) /\
     is_set_of s [ex_nh; ex_sh]) /\
  (exists s2 s3, _get_regions ex_suite_list_regions = Ok (PList [PSet s2]) /\
     _get_regions ex_suite_set_regions = Ok (PList [PSet s3]) /\
     is_set_of s2 [PStr "sh"; PStr "nh"; PStr "sh"]%string /\
     is_set_of s3 [PStr "nh"; PStr "sh"]%string /\
     (forall y, In y s2 -> exists y', In y' s3 /\ hash_key y' = hash_key y) /\
     (forall y, In y s3 -> exists y', In y' s2 /\ hash_key y' = hash_key y)).
Proof.
  apply (get_regions_resolution ex_suite_all_regions ex_suite_list_regions
           ex_suite_set_regions 40 ["module"]%string
           [("nh", ex_nh); ("sh", ex_sh); ("t", ex_tvar)]%string
           (PList [PStr "sh"; PStr "nh"; PStr "sh"]) (PSet [PStr "nh"; PStr "sh"])
           [PStr "sh"; PStr "nh"; PStr "sh"] [PStr "nh"; PStr "sh"])%string;
    try reflexivity.
  - repeat constructor; eexists; reflexivity.
  - intro x. simpl. tauto.
Defined.

(** Against C6's "yields exactly the set": the explicit regions of
    [ex_full_suite] resolve to a list holding the set, not to the set. *)
Lemma regions_resolve_to_wrapped_set :
  _get_regions ex_full_suite = Ok (PList [PSet [PStr "nh"; PStr "sh"]])%string /\
  PList [PSet [PStr "nh"; PStr "sh"]]%string <> PSet [PStr "nh"; PStr "sh"]%string.
Proof. split; [reflexivity | discriminate]. Qed.

(** ** Further properties of the module *)

(** *** [_permuted_dicts_of_specs] *)

Lemma product_complete axes perm :
  Forall2 (fun x xs => In x xs) perm axes -> In perm (product axes).
Proof.
  induction 1 as [|x xs p rest Hx _ IH]; simpl; [now left|].
  apply in_flat_map. exists x. split; [exact Hx|]. now apply in_map.
Qed.

Lemma product_empty_axis axes : In [] axes -> product axes = [].
Proof.
  induction axes as [|xs axes IH]; simpl; [tauto|].
  intros [-> | H]; [reflexivity|]. rewrite (IH H).
  induction xs as [|x xs IHx]; simpl; [reflexivity | exact IHx].
Qed.

Lemma mapR_Forall2 {A B} (f : A -> res B) xs ys :
  Forall2 (fun x y => f x = Ok y) xs ys -> mapR f xs = Ok ys.
Proof. induction 1 as [|x y xs ys Hx _ IH]; simpl; [reflexivity|]. now rewrite Hx, IH. Qed.

Lemma mapR_all_ok {A B} (f : A -> res B) xs :
  (forall x, In x xs -> exists y, f x = Ok y) ->
  exists ys, Forall2 (fun x y => f x = Ok y) xs ys.
Proof.
  induction xs as [|x xs IH]; intro H; [now exists []|].
  destruct (H x (or_introl eq_refl)) as [y Hy].
  destruct IH as [ys Hys]; [intros; apply H; now right|].
  exists (y :: ys). now constructor.
Qed.

Lemma mapR_one_error {A B} (f : A -> res B) xs e :
  (forall x e', f x = Err e' -> e' = e) ->
  (exists x, In x xs /\ forall y, f x <> Ok y) -> mapR f xs = Err e.
Proof.
  intros He (x & Hin & Hx). induction xs as [|x0 xs IH]; [destruct Hin|]. simpl.
  destruct (f x0) as [y|e'] eqn:E; simpl.
  - destruct Hin as [<- | Hin]; [exfalso; eapply Hx; exact E|]. now rewrite (IH Hin).
  - now rewrite (He _ _ E).
Qed.

Lemma iter_py_error v e : iter_py v = Err e -> e = TypeError.
Proof. destruct v; simpl; congruence. Qed.

(** [_permuted_dicts_of_specs specs], when every value of [specs] iterates
    (value [k] over [axis k]), returns exactly the dicts that pick one element
    of each axis, keys in the order of [specs]: one dict per combination, so
    the product of the axis lengths in number. *)
Theorem permuted_dicts_all_combinations (specs : pydict) (axes : list (list pyval)) :
  NoDup (map fst specs) ->
  Forall2 (fun kv xs => iter_py (snd kv) = Ok xs) specs axes ->
  exists out, _permuted_dicts_of_specs specs = Ok out /\
    length out = fold_right (fun xs n => length xs * n) 1 axes /\
    (forall d, In d out <->
       exists perm, Forall2 (fun x xs => In x xs) perm axes /\
                    d = combine (map fst specs) perm).
Proof.
  intros Hnd Hf. pose proof (mapR_Forall2 _ _ _ Hf) as Hax.
  destruct (permuted_dicts_shape specs axes Hnd Hax) as (out & Ho & Hl & _).
  exists out. split; [exact Ho|]. split; [exact Hl|].
  pose proof (Forall2_length Hf) as Hlen.
  intro d. split.
  - intro Hd. destruct (permuted_dicts_in _ _ _ Hax Ho d Hd) as (perm & Hp & ->).
    exists perm. split; [exact Hp|]. apply dict_from_pairs_nodup.
    rewrite map_fst_combine; [exact Hnd|]. rewrite length_map, (Forall2_length Hp). lia.
  - intros (perm & Hp & ->). unfold _permuted_dicts_of_specs in Ho.
    rewrite Hax in Ho. cbn [rbind] in Ho. injection Ho as <-.
    apply in_map_iff. exists perm. split; [|now apply product_complete].
    apply dict_from_pairs_nodup.
    rewrite map_fst_combine; [exact Hnd|]. rewrite length_map, (Forall2_length Hp). lia.
Qed.

(** A value that iterates over nothing makes [_permuted_dicts_of_specs]
    return no dict at all. *)
Theorem permuted_dicts_empty_axis (specs : pydict) (kv0 : string * pyval) :
  (forall kv, In kv specs -> exists xs, iter_py (snd kv) = Ok xs) ->
  In kv0 specs -> iter_py (snd kv0) = Ok [] ->
  _permuted_dicts_of_specs specs = Ok [].
Proof.
  intros Hall Hin H0. destruct (mapR_all_ok (fun kv => iter_py (snd kv)) specs Hall) as [axes Hf].
  unfold _permuted_dicts_of_specs. rewrite (mapR_Forall2 _ _ _ Hf). cbn [rbind].
  rewrite product_empty_axis; [reflexivity|].
  clear Hall. induction Hf as [|kv xs specs' axes' Hkv _ IH]; [destruct Hin|].
  destruct Hin as [-> | Hin]; [left; congruence | right; now apply IH].
Qed.

(** A value that is not iterable (a number, a boolean, [None]) makes [_permuted_dicts_of_specs] raise [TypeError]. *)
Theorem permuted_dicts_not_iterable (specs : pydict) (kv0 : string * pyval) :
  In kv0 specs -> (forall xs, iter_py (snd kv0) <> Ok xs) ->
  _permuted_dicts_of_specs specs = Err TypeError.
Proof.
  intros Hin Hn. unfold _permuted_dicts_of_specs.
  rewrite (mapR_one_error _ _ TypeError); [reflexivity | |].
  - intros kv e H. exact (iter_py_error _ _ H).
  - exists kv0. split; [exact Hin | exact Hn].
Qed.

(** *** [_merge_dicts] *)
Section MergeFacts.
Context {A : Type}.

Lemma keys_dict_set (j k : string) (v : A) (d : list (string * A)) :
  In j (map fst (dict_set k v d)) <-> j = k \/ In j (map fst d).
Proof.
  induction d as [|[k0 v0] d IH]; simpl; [intuition|].
  destruct (String.eqb k k0) eqn:E; simpl.
  - apply String.eqb_eq in E. subst. intuition.
  - rewrite IH. intuition.
Qed.

Lemma nodup_dict_set (k : string) (v : A) (d : list (string * A)) :
  NoDup (map fst d) -> NoDup (map fst (dict_set k v d)).
Proof.
  induction d as [|[k0 v0] d IH]; intro H; simpl; [now repeat constructor|].
  inversion H as [|? ? Hn Hd]; subst.
  destruct (String.eqb k k0) eqn:E; simpl.
  - apply String.eqb_eq in E. subst. now constructor.
  - constructor; [|now apply IH]. rewrite keys_dict_set.
    apply String.eqb_neq in E. intuition.
Qed.

Lemma dict_update_get (acc src : list (string * A)) (k : string) :
  NoDup (map fst src) ->
  dict_get k (dict_update acc src) =
    match dict_get k src with Some v => Some v | None => dict_get k acc end.
Proof.
  revert acc. induction src as [|[k0 v0] src IH]; intros acc H; [reflexivity|].
  inversion H as [|? ? Hn Hd]; subst.
  change (dict_update acc ((k0, v0) :: src)) with (dict_update (dict_set k0 v0 acc) src).
  rewrite (IH _ Hd). simpl.
  rewrite dict_get_set. destruct (String.eqb k k0) eqn:E.
  - apply String.eqb_eq in E. subst. now rewrite (proj2 (dict_get_none _ _) Hn).
  - reflexivity.
Qed.

Lemma dict_update_keys (acc src : list (string * A)) :
  NoDup (map fst acc) ->
  NoDup (map fst (dict_update acc src)) /\
  (forall k, In k (map fst (dict_update acc src)) <-> In k (map fst acc) \/ In k (map fst src)).
Proof.
  revert acc. induction src as [|[k0 v0] src IH]; intros acc H; simpl.
  - split; [exact H | tauto].
  - destruct (IH (dict_set k0 v0 acc) (nodup_dict_set _ _ _ H)) as [H1 H2].
    split; [exact H1|]. intro k. unfold dict_update in H2. rewrite H2, keys_dict_set. intuition.
Qed.

End MergeFacts.

(** [_merge_dicts( *ds, d)]: a key of [d] gets [d]'s value, any other key the
    value [_merge_dicts( *ds)] gives it, so precedence goes to later dicts. *)
Theorem merge_dicts_later_wins (ds : list pydict) (d : pydict) (k : string) :
  NoDup (map fst d) ->
  dict_get k (_merge_dicts (ds ++ [d])) =
    match dict_get k d with Some v => Some v | None => dict_get k (_merge_dicts ds) end.
Proof.
  intro H. unfold _merge_dicts. rewrite fold_left_app. simpl. now apply dict_update_get.
Qed.

(** The merged dict has no repeated key, and its keys are those found in
    any of the merged dicts. *)
Theorem merge_dicts_keys (ds : list pydict) :
  NoDup (map fst (_merge_dicts ds)) /\
  (forall k, In k (map fst (_merge_dicts ds)) <-> exists d, In d ds /\ In k (map fst d)).
Proof.
  unfold _merge_dicts. rewrite <- (rev_involutive ds).
  induction (rev ds) as [|d rds IH]; simpl.
  - split; [constructor | intro k; split; [intros [] | intros (d & [] & _)]].
  - rewrite fold_left_app. simpl. destruct IH as [H1 H2].
    destruct (dict_update_keys (fold_left dict_update (rev rds) []) d H1) as [H3 H4].
    split; [exact H3|]. intro k. rewrite H4, H2. split.
    + intros [(d0 & Hd0 & Hk) | Hk]; [exists d0; rewrite in_app_iff; tauto|].
      exists d. rewrite in_app_iff. simpl. tauto.
    + intros (d0 & Hd0 & Hk). apply in_app_iff in Hd0 as [Hd0 | [<- | []]]; [|tauto].
      left. eauto.
Qed.

Lemma merge_dicts_later_wins_witness :
  (dict_get "a" (_merge_dicts ([[("a", PInt 1); ("b", PInt 2)]] ++ [[("a", PInt 3)]]))
    = Some (PInt 3))%string.
Proof.
  refine (eq_trans (merge_dicts_later_wins [[("a", PInt 1); ("b", PInt 2)]]
                     [("a", PInt 3)] "a" _) _)%string.
  - repeat constructor; intros [].
  - reflexivity.
Defined.

Definition ex_axes_specs : pydict :=
  [("x", PList [PInt 1; PInt 2]); ("y", PStr "ab")]%string.

Lemma permuted_dicts_all_combinations_witness :
  exists out, _permuted_dicts_of_specs ex_axes_specs = Ok out /\
    length out = fold_right (fun xs n => length xs * n) 1
                   [[PInt 1; PInt 2]; [PStr "a"; PStr "b"]]%string /\
    (forall d, In d out <->
       exists perm, Forall2 (fun x xs => In x xs) perm
                      [[PInt 1; PInt 2]; [PStr "a"; PStr "b"]]%string /\
                    d = combine (map fst ex_axes_specs) perm).
Proof.
  apply permuted_dicts_all_combinations.
  - repeat constructor; simpl; intuition discriminate.
  - repeat constructor.
Defined.

Lemma permuted_dicts_empty_axis_witness :
  _permuted_dicts_of_specs [("x", PList [PInt 1]); ("y", PSet [])]%string = Ok [].
Proof.
  apply (permuted_dicts_empty_axis _ ("y", PSet [])%string).
  - intros kv [<- | [<- | []]]; eexists; reflexivity.
  - simpl. tauto.
  - reflexivity.
Defined.

Lemma permuted_dicts_not_iterable_witness :
  _permuted_dicts_of_specs [("x", PList [PInt 1]); ("y", PInt 5)]%string = Err TypeError.
Proof.
  apply (permuted_dicts_not_iterable _ ("y", PInt 5)%string).
  - simpl. tauto.
  - intros xs. discriminate.
Defined.

(** *** [_user_verify] *)

Lemma ascii_lower_y (c : ascii) :
  Ascii.eqb (ascii_lower c) "y"%char = (Ascii.eqb c "y"%char || Ascii.eqb c "Y"%char).
Proof.
  destruct c as [[] [] [] [] [] [] [] []]; reflexivity.
Qed.

(** [_user_verify(prompt)] writes the prompt and reads one line: at end of
    input it raises [EOFError]; an empty line raises [IndexError]; a line
    starting with 'y' or 'Y' returns; any other line raises
    [AospyException]. Exactly one line is consumed. *)
Theorem user_verify_answers (prompt : string) (w : world) :
  _user_verify prompt w =
    match w_stdin w with
    | [] => (Err EOFError,
             mkWorld [] (w_stdout w ++ [prompt]) (w_log w) (w_events w) (w_heap w))
    | answer :: rest =>
        (match answer with
         | EmptyString => Err IndexError
         | String c _ =>
             if Ascii.eqb c "y"%char || Ascii.eqb c "Y"%char then Ok tt
             else Err AospyException
         end,
         mkWorld rest (w_stdout w ++ [prompt]) (w_log w) (w_events w) (w_heap w))
    end.
Proof.
  destruct w as [stdin out lg evs hp].
  unfold _user_verify, py_input, mbind, write_stdout, mret, raise. simpl.
  destruct stdin as [|answer rest]; [reflexivity|].
  destruct answer as [|c t]; [reflexivity|]. simpl.
  rewrite ascii_lower_y. destruct (Ascii.eqb c "y"%char || Ascii.eqb c "Y"%char); reflexivity.
Qed.

(** *** [_get_variables] and unhashable or namespace-less requests *)

Definition ex_vars_ns :=
  PObj 50 ["module"]%string [("t", ex_tvar); ("nh", ex_nh)]%string.
Definition ex_lib_vars := PObj 3 ["module"]%string [(_VARIABLES_STR, ex_vars_ns)].
Definition ex_suite_all_vars :=
  mkCalcSuite [(_OBJ_LIB_STR, ex_lib_vars); (_VARIABLES_STR, PStr "all")]%string ex_lib_vars.

(** Unlike regions, variables resolve to the set itself (no enclosing
    list): with "all", the set of the Var-typed attribute values of
    [getattr(library, 'variables', library)]; otherwise the set of the
    requested iterable's (hashable) elements. *)
Theorem get_variables_resolution (self1 self2 : CalcSuite)
    (n : nat) (mro : list string) (attrs : list (string * pyval)) (v : pyval) (xs : list pyval) :
  dict_get _VARIABLES_STR self1.(_specs_in) = Some (PStr "all") ->
  getattr_default self1.(_obj_lib) "variables" self1.(_obj_lib) = PObj n mro attrs ->
  dict_get _VARIABLES_STR self2.(_specs_in) = Some v -> py_eq_str v "all" = false ->
  iter_py v = Ok xs -> Forall hashable xs ->
  (exists s, _get_variables self1 = Ok (PSet s) /\
     is_set_of s (filter (fun obj => isinstance obj "Var") (map snd attrs))) /\
  (exists s, _get_variables self2 = Ok (PSet s) /\ is_set_of s xs).
Proof.
  intros H1 Hns H2 Ha Hi Hh. split.
  - assert (Hv : Forall hashable (filter (fun obj => isinstance obj "Var") (map snd attrs))).
    { apply Forall_forall. intros x Hx. apply filter_In in Hx as [_ Hx].
      destruct x; try discriminate. eexists. reflexivity. }
    destruct (py_set_spec _ Hv) as (s & Hs & Hset). exists s. split; [|exact Hset].
    unfold _get_variables, dict_getitem. rewrite H1. simpl. rewrite Hns.
    unfold _get_all_objs_of_type. simpl. rewrite Hs. reflexivity.
  - destruct (py_set_spec _ Hh) as (s & Hs & Hset). exists s. split; [|exact Hset].
    unfold _get_variables, dict_getitem. rewrite H2. simpl. rewrite Ha.
    unfold py_set_of. rewrite Hi. simpl. rewrite Hs. reflexivity.
Qed.

Lemma get_variables_resolution_witness :
  (exists s, _get_variables ex_suite_all_vars = Ok (PSet s) /\ is_set_of s [ex_tvar]) /\
  (exists s, _get_variables ex_full_suite = Ok (PSet s) /\
     is_set_of s [PStr "t"; PStr "p"]%string).
Proof.
  apply (get_variables_resolution ex_suite_all_vars ex_full_suite 50 ["module"]%string
           [("t", ex_tvar); ("nh", ex_nh)]%string (PList [PStr "t"; PStr "p"])%string);
    try reflexivity.
  repeat constructor; eexists; reflexivity.
Defined.

(** Induction on Python values, with a hypothesis for each element of a
    tuple. *)
Section PyvalTupleInd.
Variable P : pyval -> Prop.
Hypothesis P_tuple : forall xs, Forall P xs -> P (PTuple xs).
Hypothesis P_other : forall v, (forall xs, v <> PTuple xs) -> P v.

Fixpoint pyval_tuple_ind (v : pyval) : P v :=
  match v with
  | PTuple xs =>
      P_tuple xs ((fix go (l : list pyval) : Forall P l :=
                     match l with
                     | [] => Forall_nil P
                     | x :: l' => Forall_cons x (pyval_tuple_ind x) (go l')
                     end) xs)
  | v' => P_other v' ltac:(intros ? ?; discriminate)
  end.
End PyvalTupleInd.

Lemma hash_key_error v e : hash_key v = Err e -> e = TypeError.
Proof.
  revert e. induction v as [xs IH | v Hv] using pyval_tuple_ind; intro e.
  - simpl. induction IH as [|x xs Hx Hxs IHxs]; simpl; [congruence|].
    destruct (hash_key x) as [k|e'] eqn:E; simpl.
    + destruct (mapR hash_key xs) eqn:E2; simpl in *; [congruence | apply IHxs; reflexivity].
    + intro H. injection H as <-. now apply Hx.
  - destruct v; simpl; try congruence. exfalso. now apply (Hv xs).
Qed.

Lemma set_insert_unhashable acc xs :
  (exists x, In x xs /\ ~ hashable x) -> set_insert acc xs = Err TypeError.
Proof.
  revert acc. induction xs as [|x0 xs IH]; intros acc (x & Hin & Hx); [destruct Hin|].
  simpl. destruct (hash_key x0) as [k|e] eqn:E; simpl.
  - destruct Hin as [<- | Hin]; [exfalso; apply Hx; now exists k|].
    destruct (existsb (fun kv => hkey_eqb (fst kv) k) acc); apply IH; exists x; split; assumption.
  - now rewrite (hash_key_error _ _ E).
Qed.

(** An explicit request whose elements include an unhashable value (a
    list, set or dict, or a tuple holding one) makes [set(...)] raise [TypeError], for regions and
    for variables alike. *)
Theorem explicit_unhashable_type_error (self : CalcSuite) (name : string) (v : pyval)
    (xs : list pyval) :
  name = _REGIONS_STR \/ name = _VARIABLES_STR ->
  dict_get name self.(_specs_in) = Some v -> py_eq_str v "all" = false ->
  iter_py v = Ok xs -> (exists x, In x xs /\ ~ hashable x) ->
  (if String.eqb name _REGIONS_STR then _get_regions self else _get_variables self)
    = Err TypeError.
Proof.
  intros Hn Hv Ha Hi Hx.
  assert (Hs : py_set_of v = Err TypeError)
    by (unfold py_set_of, py_set; rewrite Hi; simpl; now rewrite set_insert_unhashable).
  destruct Hn as [-> | ->]; simpl.
  - unfold _get_regions, dict_getitem. rewrite Hv. simpl. rewrite Ha, Hs. reflexivity.
  - unfold _get_variables, dict_getitem. rewrite Hv. simpl. rewrite Ha, Hs. reflexivity.
Qed.

Lemma explicit_unhashable_type_error_witness :
  _get_regions (mkCalcSuite [(_REGIONS_STR, PList [PStr "nh"; PList [PStr "sh"]])]%string PNone)
    = Err TypeError.
Proof.
  apply (explicit_unhashable_type_error _ _REGIONS_STR
           (PList [PStr "nh"; PList [PStr "sh"]])%string [PStr "nh"; PList [PStr "sh"]]%string).
  - now left.
  - reflexivity.
  - reflexivity.
  - reflexivity.
  - exists (PList [PStr "sh"])%string. split; [simpl; tauto|]. intros [k Hk]. discriminate.
Defined.

(** With "all", a [regions] or [variables] namespace that is a plain dict
    (no attributes) makes the resolution raise [AttributeError]. *)
Theorem all_from_dict_namespace_attribute_error (self : CalcSuite) (name : string)
    (kvs : list (string * pyval)) :
  name = _REGIONS_STR \/ name = _VARIABLES_STR ->
  dict_get name self.(_specs_in) = Some (PStr "all") ->
  getattr_default self.(_obj_lib) name self.(_obj_lib) = PDict kvs ->
  (if String.eqb name _REGIONS_STR then _get_regions self else _get_variables self)
    = Err AttributeError.
Proof.
  intros [-> | ->] H1 H2; simpl.
  - unfold _get_regions, dict_getitem. rewrite H1. simpl. unfold _REGIONS_STR in H2.
    rewrite H2. reflexivity.
  - unfold _get_variables, dict_getitem. rewrite H1. simpl. unfold _VARIABLES_STR in H2.
    rewrite H2. reflexivity.
Qed.

Definition ex_lib_dict_regions :=
  PObj 4 ["module"]%string [(_REGIONS_STR, PDict [("nh", ex_nh)]%string)].

Lemma all_from_dict_namespace_attribute_error_witness :
  _get_regions (mkCalcSuite [(_REGIONS_STR, PStr "all")]%string ex_lib_dict_regions)
    = Err AttributeError.
Proof.
  apply (all_from_dict_namespace_attribute_error _ _REGIONS_STR [("nh", ex_nh)]%string).
  - now left.
  - reflexivity.
  - reflexivity.
Defined.

(** *** [_combine_core_aux_specs] and missing spec names *)

(** [_combine_core_aux_specs] returns no dict when there is no core tree,
    without resolving the auxiliary specs at all (their errors do not
    surface); otherwise it raises the auxiliary error if any, or pairs every
    core tree, in order, with every auxiliary dict. *)
Theorem combine_core_aux_specs_cases (self : CalcSuite) (cores : list pydict) :
  _permute_core_specs self = Ok cores ->
  _combine_core_aux_specs self =
    match cores with
    | [] => Ok []
    | _ => let? auxs := _permute_aux_specs self in
           Ok (flat_map (fun core => map (fun aux => _merge_dicts [core; aux]) auxs) cores)
    end.
Proof.
  intro H. unfold _combine_core_aux_specs. rewrite H. cbn [rbind].
  destruct cores as [|c cs]; [reflexivity|].
  destruct (_permute_aux_specs self) as [auxs|e] eqn:E; cbn [rbind].
  - rewrite (concat_mapR_const _ (fun core => map (fun aux => _merge_dicts [core; aux]) auxs))
      by (intros; reflexivity). rewrite flat_map_concat_map. reflexivity.
  - reflexivity.
Qed.

Definition ex_no_projects_suite :=
  mkCalcSuite [(_OBJ_LIB_STR, ex_lib); (_PROJECTS_STR, PList [])] ex_lib.

Lemma combine_core_aux_specs_cases_witness :
  _combine_core_aux_specs ex_no_projects_suite = Ok [] /\
  _permute_aux_specs ex_no_projects_suite = Err KeyError.
Proof.
  split; [|reflexivity].
  rewrite (combine_core_aux_specs_cases ex_no_projects_suite []); reflexivity.
Defined.

Lemma keys_delete_sub {A} (j s : string) (d : list (string * A)) :
  In j (map fst (dict_delete s d)) -> In j (map fst d).
Proof.
  induction d as [|[k0 v0] d IH]; simpl; [tauto|].
  destruct (String.eqb s k0); simpl; [tauto|]. intuition.
Qed.

Lemma pop_keys_missing {A} (ks : list string) (k : string) (d : list (string * A)) :
  In k ks -> ~ In k (map fst d) -> pop_keys ks d = Err KeyError.
Proof.
  revert d. induction ks as [|k0 ks IH]; intros d Hk Hd; [destruct Hk|]. simpl.
  unfold dict_pop. destruct (dict_get k0 d) eqn:E; simpl; [|reflexivity].
  destruct Hk as [-> | Hk].
  - exfalso. apply Hd, dict_get_in. eauto.
  - apply IH; [exact Hk|]. intro H. apply Hd. eapply keys_delete_sub. exact H.
Qed.

Lemma pop_keys_keys_sub {A} (ks : list string) (d d' : list (string * A)) :
  pop_keys ks d = Ok d' -> forall j, In j (map fst d') -> In j (map fst d).
Proof.
  revert d. induction ks as [|k0 ks IH]; intros d H; simpl in H.
  - injection H as <-. tauto.
  - unfold dict_pop in H. destruct (dict_get k0 d); [|discriminate]. simpl in H.
    intros j Hj. eapply keys_delete_sub. exact (IH _ H j Hj).
Qed.

Lemma rename_missing (pm : list (string * string)) (k : string) (d : pydict) :
  In k (map fst pm) -> ~ In k (map snd pm) -> ~ In k (map fst d) ->
  rename_specs (some_mapping pm) d = Err KeyError.
Proof.
  revert d. induction pm as [|[s c] pm IH]; intros d Hk Hc Hd; [destruct Hk|].
  simpl in *. unfold dict_pop. destruct (dict_get s d) eqn:E; simpl.
  - destruct Hk as [-> | Hk]; [exfalso; apply Hd, dict_get_in; eauto|].
    apply IH; [exact Hk | tauto|]. rewrite keys_dict_set. intros [-> | H]; [tauto|].
    apply Hd. eapply keys_delete_sub. exact H.
  - reflexivity.
Qed.

Lemma getitem_missing {A} (k : string) (d : list (string * A)) :
  ~ In k (map fst d) -> dict_getitem k d = Err KeyError.
Proof. intro H. unfold dict_getitem. now rewrite (proj2 (dict_get_none k d) H). Qed.

(** If one of the fourteen spec names (the library, core and auxiliary
    names) is missing from the suite, [_permute_aux_specs] raises an error
    instead of producing parameter dicts. *)
Theorem permute_aux_specs_missing_name (self : CalcSuite) (k : string) :
  In k spec_names -> ~ In k (map fst self.(_specs_in)) ->
  exists e, _permute_aux_specs self = Err e.
Proof.
  intros Hk Hn. unfold _permute_aux_specs. cbv zeta. rewrite calc_aux_mapping_eq.
  cbn [rbind]. unfold _get_aux_specs.
  destruct (in_dec string_dec k _CORE_SPEC_NAMES) as [Hc | Hc].
  - rewrite (pop_keys_missing _ k _ Hc Hn). cbn [rbind]. eauto.
  - assert (Ha : In k _AUX_SPEC_NAMES)
      by (unfold spec_names in Hk; apply in_app_iff in Hk; tauto).
    destruct (pop_keys _CORE_SPEC_NAMES self.(_specs_in)) as [d0|e] eqn:E0;
      cbn [rbind]; [|eauto].
    destruct (_get_regions self) as [rg|e] eqn:E1; cbn [rbind]; [|eauto].
    destruct (_get_variables self) as [vr|e] eqn:E2; cbn [rbind]; [|eauto].
    destruct (_get_date_ranges self) as [dr|e] eqn:E3; cbn [rbind]; [|eauto].
    destruct (_get_time_reg_reducts self) as [tr|e] eqn:E4; cbn [rbind]; [|eauto].
    assert (N1 : k <> _REGIONS_STR)
      by (intros ->; unfold _get_regions in E1; now rewrite getitem_missing in E1).
    assert (N2 : k <> _VARIABLES_STR)
      by (intros ->; unfold _get_variables in E2; now rewrite getitem_missing in E2).
    assert (N3 : k <> "date_ranges"%string)
      by (intros ->; unfold _get_date_ranges in E3; now rewrite getitem_missing in E3).
    assert (N4 : k <> "output_time_regional_reductions"%string)
      by (intros ->; unfold _get_time_reg_reducts in E4; now rewrite getitem_missing in E4).
    exists KeyError. rewrite (rename_missing aux_pairs k); [reflexivity | | |].
    + now rewrite aux_names_pairs.
    + intro H. apply (calc_not_aux k); [|exact Ha].
      unfold calc_param_names. apply in_app_iff. now right.
    + rewrite !keys_dict_set. intros [H | [H | [H | [H | H]]]]; try contradiction.
      exact (Hn (pop_keys_keys_sub _ _ _ E0 k H)).
Qed.

Lemma permute_aux_specs_missing_name_witness :
  exists e, _permute_aux_specs
              (mkCalcSuite (dict_delete "input_time_offsets" ex_full_specs) ex_lib) = Err e.
Proof.
  apply (permute_aux_specs_missing_name _ "input_time_offsets"%string).
  - apply in_app_iff. right. simpl. do 5 right. now left.
  - simpl. intuition discriminate.
Defined.

(** *** [create_calcs] *)

(** The parameter dicts whose construction is attempted: all of them, up to
    and including the first whose construction fails. *)
Fixpoint attempted (construct : pydict -> res calc) (sps : list pydict) : list pydict :=
  match sps with
  | [] => []
  | sp :: sps' =>
      sp :: match construct sp with Ok _ => attempted construct sps' | Err _ => [] end
  end.

Lemma construct_all (construct : pydict -> res calc) (sps : list pydict) (w : world) :
  mapM (fun sp => emit (EvConstruct sp) ;;; lift (construct sp)) sps w =
    (mapR construct sps, w_add w [] (map EvConstruct (attempted construct sps))).
Proof.
  revert w. induction sps as [|sp sps IH]; intro w.
  - unfold w_add. simpl. rewrite !app_nil_r. now destruct w.
  - simpl. unfold mbind at 1, mbind at 1, emit, lift. simpl.
    destruct (construct sp) as [c|e]; simpl.
    + unfold mbind. rewrite IH. unfold w_add, mret. simpl.
      destruct (mapR construct sps); simpl; now rewrite <- app_assoc.
    + unfold w_add. simpl. now rewrite app_nil_r.
Qed.

(** [create_calcs] builds one unit per parameter dict of the suite, in
    order, recording each construction; a failing construction raises its
    error and no later dict is constructed. *)
Theorem create_calcs_in_order (construct : pydict -> res calc) (suite : CalcSuite)
    (sps : list pydict) (w : world) :
  _combine_core_aux_specs suite = Ok sps ->
  create_calcs construct suite w =
    (mapR construct sps,
     mkWorld (w_stdin w) (w_stdout w) (w_log w)
             (w_events w ++ map EvConstruct (attempted construct sps)) (w_heap w)).
Proof.
  intro H. unfold create_calcs, mbind at 1, lift at 1. rewrite H.
  rewrite construct_all. unfold w_add. now rewrite app_nil_r.
Qed.

Definition construct_type_error (sp : pydict) : res calc := Err TypeError.

Definition ex_full_sps : list pydict :=
  match _combine_core_aux_specs ex_full_suite with Ok l => l | Err _ => [] end.

Lemma create_calcs_in_order_witness :
  _combine_core_aux_specs ex_full_suite = Ok ex_full_sps /\
  create_calcs construct_type_error ex_full_suite world0 =
    (mapR construct_type_error ex_full_sps,
     mkWorld [] [] [] (map EvConstruct (attempted construct_type_error ex_full_sps)) []).
Proof.
  split; [vm_compute; reflexivity |].
  apply (create_calcs_in_order construct_type_error ex_full_suite ex_full_sps world0).
  vm_compute. reflexivity.
Defined.

(** When every construction succeeds, every parameter dict is attempted. *)
Lemma attempted_ok (construct : pydict -> res calc) (sps : list pydict) (calcs : list calc) :
  mapR construct sps = Ok calcs -> attempted construct sps = sps.
Proof.
  revert calcs. induction sps as [|sp sps IH]; intros calcs H; [reflexivity|].
  simpl in *. destruct (construct sp); [|discriminate].
  destruct (mapR construct sps) as [l|] eqn:E; [|discriminate].
  now rewrite (IH l).
Qed.

(** [d.pop(k, False)] yields a falsy value: [k] is absent or maps to a falsy value. *)
Definition pop_falsy (k : string) (d : pydict) : Prop :=
  match dict_get k d with Some v => truthy v = false | None => True end.

Lemma pop_falsy_pop (k : string) (d : pydict) :
  pop_falsy k d ->
  exists v, truthy v = false /\ dict_pop_default k (PBool false) d = (v, dict_delete k d).
Proof.
  unfold pop_falsy, dict_pop_default. destruct (dict_get k d) eqn:E.
  - intro H. now exists p.
  - intros _. exists (PBool false). split; [reflexivity|].
    now rewrite dict_delete_absent.
Qed.

(** Storing the same dict twice at a location is storing it once. *)
Lemma heap_store_idem (loc : nat) (x : pydict) (h : list (nat * pydict)) :
  heap_store loc x (heap_store loc x h) = heap_store loc x h.
Proof.
  induction h as [|[l y] h IH]; simpl.
  - now rewrite Nat.eqb_refl.
  - destruct (Nat.eqb loc l) eqn:E; simpl; rewrite E; [reflexivity|]. now rewrite IH.
Qed.

Section SubmitRuns.
Variable Calc_construct : pydict -> res calc.
Variable pformat : pydict -> string.
Variable cpu_count : nat.
Variable pool_order : nat -> list nat.

(** *** [submit_mult_calcs] end to end

    Without a prompt, without [parallelize] and without a 'calcs' key in
    [exec_options], a submission whose units all construct, and whose units
    raise only [Exception]s, returns the harness
    results of the units in order, computed with the caller's options minus
    'prompt_verify' and 'parallelize'; it prints nothing and reads no input,
    records the constructions and then the computations in order, logs one
    warning per failed unit, and leaves the caller's dict without
    'prompt_verify'. *)
Theorem submit_sequential_run (specs : pydict) (loc : nat) (d : pydict) (w : world)
    (suite : CalcSuite) (sps : list pydict) (calcs : list calc) :
  heap_lookup loc (w_heap w) = Some d ->
  pop_falsy "prompt_verify" d ->
  CalcSuite_init specs = Ok suite ->
  _combine_core_aux_specs suite = Ok sps ->
  mapR Calc_construct sps = Ok calcs ->
  dict_get "calcs" d = None ->
  pop_falsy "parallelize" d ->
  let kw := dict_delete "parallelize" (dict_delete "prompt_verify" d) in
  Forall (caught kw) calcs ->
  submit_mult_calcs Calc_construct pformat cpu_count pool_order specs (Some loc) w =
    (Ok (map (unit_result kw) calcs),
     mkWorld (w_stdin w) (w_stdout w) (w_log w ++ batch_log kw calcs)
             (w_events w ++ map EvConstruct sps ++ batch_events calcs)
             (heap_store loc (dict_delete "prompt_verify" d) (w_heap w))).
Proof.
  intros Hd Hpv Hinit Hcomb Hmap Hcalcs Hpar kw Hcaught.
  destruct (pop_falsy_pop _ _ Hpv) as [pv [Hpvf Hpop]].
  unfold submit_mult_calcs. cbn [mbind mret].
  unfold mbind at 1, heap_read at 1. rewrite Hd. cbn [of_option].
  rewrite Hpop. unfold mbind at 1, heap_write at 1. rewrite Hpvf.
  unfold mbind at 1, mret at 1.
  unfold mbind at 1, lift at 1. rewrite Hinit.
  unfold mbind at 1. rewrite (create_calcs_in_order _ _ _ _ Hcomb). rewrite Hmap.
  unfold mbind at 1, heap_read at 1. cbn [w_heap].
  rewrite heap_lookup_store, Nat.eqb_refl. cbn [of_option].
  rewrite dict_get_delete_other by discriminate. rewrite Hcalcs.
  assert (Hpv' : pop_falsy "parallelize" (dict_delete "prompt_verify" d)).
  { unfold pop_falsy. rewrite dict_get_delete_other by discriminate. exact Hpar. }
  destruct (pop_falsy_pop _ _ Hpv') as [par [Hparf Hpop']].
  rewrite Hpop'. fold kw. unfold _exec_calcs. rewrite Hparf.
  rewrite sequential_batch by exact Hcaught.
  rewrite (attempted_ok _ _ _ Hmap).
  unfold w_add. cbn. now rewrite app_assoc.
Qed.

(** Without a prompt, and with every unit constructing, a 'calcs' key in
    [exec_options] collides with [_exec_calcs]'s positional argument: the call raises [TypeError] after every unit was
    constructed and before any is computed. *)
Theorem submit_calcs_key_type_error (specs : pydict) (loc : nat) (d : pydict) (w : world)
    (suite : CalcSuite) (sps : list pydict) (calcs : list calc) (v : pyval) :
  heap_lookup loc (w_heap w) = Some d ->
  pop_falsy "prompt_verify" d ->
  CalcSuite_init specs = Ok suite ->
  _combine_core_aux_specs suite = Ok sps ->
  mapR Calc_construct sps = Ok calcs ->
  dict_get "calcs" d = Some v ->
  submit_mult_calcs Calc_construct pformat cpu_count pool_order specs (Some loc) w =
    (Err TypeError,
     mkWorld (w_stdin w) (w_stdout w) (w_log w) (w_events w ++ map EvConstruct sps)
             (heap_store loc (dict_delete "prompt_verify" d) (w_heap w))).
Proof.
  intros Hd Hpv Hinit Hcomb Hmap Hcalcs.
  destruct (pop_falsy_pop _ _ Hpv) as [pv [Hpvf Hpop]].
  unfold submit_mult_calcs. cbn [mbind mret].
  unfold mbind at 1, heap_read at 1. rewrite Hd. cbn [of_option].
  rewrite Hpop. unfold mbind at 1, heap_write at 1. rewrite Hpvf.
  unfold mbind at 1, mret at 1.
  unfold mbind at 1, lift at 1. rewrite Hinit.
  unfold mbind at 1. rewrite (create_calcs_in_order _ _ _ _ Hcomb). rewrite Hmap.
  unfold mbind at 1, heap_read at 1. cbn [w_heap].
  rewrite heap_lookup_store, Nat.eqb_refl. cbn [of_option].
  rewrite dict_get_delete_other by discriminate. rewrite Hcalcs.
  rewrite (attempted_ok _ _ _ Hmap). reflexivity.
Qed.

(** Without a 'library' entry in [calc_suite_specs], [CalcSuite] raises
    [KeyError] and nothing is constructed or computed. *)
Theorem submit_missing_library (specs : pydict) (loc : nat) (d : pydict) (w : world) :
  heap_lookup loc (w_heap w) = Some d ->
  pop_falsy "prompt_verify" d ->
  dict_get "library" specs = None ->
  submit_mult_calcs Calc_construct pformat cpu_count pool_order specs (Some loc) w =
    (Err KeyError,
     mkWorld (w_stdin w) (w_stdout w) (w_log w) (w_events w)
             (heap_store loc (dict_delete "prompt_verify" d) (w_heap w))).
Proof.
  intros Hd Hpv Hlib.
  destruct (pop_falsy_pop _ _ Hpv) as [pv [Hpvf Hpop]].
  unfold submit_mult_calcs. cbn [mbind mret].
  unfold mbind at 1, heap_read at 1. rewrite Hd. cbn [of_option].
  rewrite Hpop. unfold mbind at 1, heap_write at 1. rewrite Hpvf.
  unfold mbind at 1, mret at 1.
  unfold mbind at 1, lift at 1, CalcSuite_init, dict_getitem.
  unfold _OBJ_LIB_STR. rewrite Hlib. reflexivity.
Qed.



(** Answering the prompt with a word starting with 'y' or 'Y' runs the
    same submission as an unprompted call made after the summary and the
    prompt were printed, the answer consumed, and 'prompt_verify' popped. *)
Theorem submit_confirmed_same_as_unprompted (specs : pydict) (loc : nat) (d : pydict)
    (w : world) (v : pyval) (answer : string) (rest : list string) (tail : string) :
  heap_lookup loc (w_heap w) = Some d ->
  NoDup (map fst d) ->
  dict_get "prompt_verify" d = Some v ->
  truthy v = true ->
  w_stdin w = answer :: rest ->
  py_lower answer = String "y"%char tail ->
  submit_mult_calcs Calc_construct pformat cpu_count pool_order specs (Some loc) w =
  submit_mult_calcs Calc_construct pformat cpu_count pool_order specs (Some loc)
    (mkWorld rest (w_stdout w ++ [(_print_suite_summary pformat specs ++ nl)%string; _user_verify_prompt])
             (w_log w) (w_events w)
             (heap_store loc (dict_delete "prompt_verify" d) (w_heap w))).
Proof.
  intros Hd Hnd Hv Ht Hin Hl.
  unfold submit_mult_calcs. cbn [mbind mret].
  match goal with |- context [mbind (lift (CalcSuite_init specs)) ?k] => set (K := k) end.
  clearbody K.
  cbv beta iota zeta delta [mbind heap_read heap_write _user_verify py_input py_print
    write_stdout mret raise].
  cbn [w_heap w_stdin w_stdout w_log w_events].
  rewrite Hd, heap_lookup_store, Nat.eqb_refl. cbn [of_option].
  unfold dict_pop_default at 1 2. rewrite Hv, dict_get_delete_same by exact Hnd.
  rewrite Ht. cbn [truthy]. rewrite Hin. cbn [w_stdin]. rewrite Hl.
  cbn [w_heap w_stdin w_stdout w_log w_events].
  rewrite heap_store_idem, <- app_assoc. reflexivity.
Qed.
End SubmitRuns.

Lemma construct_ok_caught (kw : pydict) (sps : list pydict) :
  Forall (caught kw) (map (fun _ => calc_ok) sps).
Proof.
  apply Forall_forall. intros c Hc. apply in_map_iff in Hc.
  destruct Hc as [sp [<- _]]. intros e tb H. discriminate H.
Qed.

Definition ex_full_calcs : list calc := map (fun _ => calc_ok) ex_full_sps.

Lemma submit_sequential_run_witness :
  let kw := dict_delete "parallelize" (dict_delete "prompt_verify" caller_opts) in
  submit_mult_calcs construct_ok pformat_empty 1 rev_order ex_full_specs (Some 7) world_opts =
    (Ok (map (unit_result kw) ex_full_calcs),
     mkWorld [] [] (batch_log kw ex_full_calcs)
             (map EvConstruct ex_full_sps ++ batch_events ex_full_calcs)
             (heap_store 7 (dict_delete "prompt_verify" caller_opts) (w_heap world_opts)))%string.
Proof.
  apply (submit_sequential_run construct_ok pformat_empty 1 rev_order ex_full_specs 7
           caller_opts world_opts ex_full_suite ex_full_sps ex_full_calcs);
    [reflexivity | exact eq_refl | reflexivity | vm_compute; reflexivity
    | vm_compute; reflexivity | reflexivity | exact eq_refl | apply construct_ok_caught].
Defined.

Definition opts_with_calcs : pydict := [("calcs", PList []); ("verbose", PBool true)]%string.
Definition world_calcs := mkWorld [] [] [] [] [(7, opts_with_calcs)].

Lemma submit_calcs_key_type_error_witness :
  submit_mult_calcs construct_ok pformat_empty 1 rev_order ex_full_specs (Some 7) world_calcs =
    (Err TypeError,
     mkWorld [] [] [] (map EvConstruct ex_full_sps)
             (heap_store 7 (dict_delete "prompt_verify" opts_with_calcs) (w_heap world_calcs)))%string.
Proof.
  apply (submit_calcs_key_type_error construct_ok pformat_empty 1 rev_order ex_full_specs 7
           opts_with_calcs world_calcs ex_full_suite ex_full_sps ex_full_calcs (PList []));
    [reflexivity | exact I | reflexivity | vm_compute; reflexivity
    | vm_compute; reflexivity | reflexivity].
Defined.

Definition ex_specs_no_library : pydict := dict_delete _OBJ_LIB_STR ex_full_specs.

Lemma submit_missing_library_witness :
  submit_mult_calcs construct_ok pformat_empty 1 rev_order ex_specs_no_library (Some 7) world_opts =
    (Err KeyError,
     mkWorld [] [] [] []
             (heap_store 7 (dict_delete "prompt_verify" caller_opts) (w_heap world_opts)))%string.
Proof.
  apply (submit_missing_library construct_ok pformat_empty 1 rev_order ex_specs_no_library 7
           caller_opts world_opts); [reflexivity | exact eq_refl | reflexivity].
Defined.

Definition opts_prompt : pydict := [("prompt_verify", PBool true); ("verbose", PBool true)]%string.
Definition world_prompt := mkWorld ["Yes"%string] [] [] [] [(7, opts_prompt)].

Lemma submit_confirmed_same_as_unprompted_witness :
  submit_mult_calcs construct_ok pformat_empty 1 rev_order ex_full_specs (Some 7) world_prompt =
  submit_mult_calcs construct_ok pformat_empty 1 rev_order ex_full_specs (Some 7)
    (mkWorld [] [(_print_suite_summary pformat_empty ex_full_specs ++ nl)%string; _user_verify_prompt]
             [] [] (heap_store 7 (dict_delete "prompt_verify" opts_prompt) (w_heap world_prompt)))%string.
Proof.
  apply (submit_confirmed_same_as_unprompted construct_ok pformat_empty 1 rev_order
           ex_full_specs 7 opts_prompt world_prompt (PBool true) "Yes" [] "es")%string;
    [reflexivity | repeat constructor; simpl; intuition discriminate
    | reflexivity | reflexivity | reflexivity | reflexivity].
Defined.
